(** * boardgame.io server persistence layer: cache-backed game-state connectors

    A shallow embedding of [src/server/db/sql.js] (the [SQL] connector shared
    by the SQLite and MySQL classes) and of the [InMemory], [Mongo] and
    [Firebase] connectors, followed by the properties of the
    connect/get/set/has contract.

    JavaScript objects live in a heap and are passed by reference, because
    [set] caches the very object the caller hands in and then deletes a
    property from it.  Each [async] method is cut at its single [await]: the
    code before it runs atomically against the connector's memory, and the
    code after it is a continuation that is handed the store's answer and runs
    against whatever the memory has become by then. *)

From stdpp Require Import base option strings gmap list.
From Stdlib Require Import ZArith Lia.

Local Open Scope Z_scope.
Local Open Scope string_scope.

(** ** JavaScript values *)

Module JS.

Definition loc := positive.

(** The values a game state and a store answer are built from.  Numbers are
    the integers ([_stateID] is a sequence number); objects are references. *)
Inductive value : Type :=
| VUndefined
| VNull
| VBool (b : bool)
| VNum (n : Z)
| VStr (s : string)
| VRef (l : loc).
Arguments VRef l%_positive.

(** An object is its own properties; the heap maps references to objects. *)
Abbreviation obj := (gmap string value).
Abbreviation heap := (gmap loc (gmap string value)).

(** ToBoolean. *)
Definition truthy (v : value) : bool :=
  match v with
  | VUndefined | VNull => false
  | VBool b => b
  | VNum n => negb (Z.eqb n 0)
  | VStr s => negb (String.eqb s "")
  | VRef _ => true
  end.

(** [v !== undefined]. *)
Definition defined (v : value) : bool :=
  match v with VUndefined => false | _ => true end.

(** [v !== null]. *)
Definition not_null (v : value) : bool :=
  match v with VNull => false | _ => true end.

(** ToNumber on the primitives whose conversion is an integer or NaN
    ([Some None] is NaN).  Strings and objects convert through
    StringToNumber and ToPrimitive, which are not modelled: [None]. *)
Definition to_number (v : value) : option (option Z) :=
  match v with
  | VUndefined => Some None
  | VNull => Some (Some 0)
  | VBool b => Some (Some (if b then 1 else 0))
  | VNum n => Some (Some n)
  | VStr _ | VRef _ => None
  end.

(** [a >= b]: false as soon as one side is NaN. *)
Definition ge (a b : value) : option bool :=
  match to_number a, to_number b with
  | Some (Some x), Some (Some y) => Some (Z.leb y x)
  | Some _, Some _ => Some false
  | _, _ => None
  end.

(** Reading property [p] of the object at [l]: [undefined] when absent. *)
Definition field (h : heap) (l : loc) (p : string) : value :=
  default VUndefined (h !! l ≫= (.!! p)).

End JS.
Export JS.

(** ** The bounded cache *)

(** Modelled from the spec: the [lru-cache] package the connectors
    instantiate with [new LRU({ max: cacheSize })] is a dependency and not
    part of the sources.  Section 4.1 of the specification describes it: a
    fixed positive capacity, [get] marks the entry as recently used, [set]
    inserts or replaces and evicts the least recently used entry when full,
    [reset] clears.  Entries are kept most recently used first. *)
Module LRU.

Record t : Type := mk { max : positive; entries : list (string * value) }.

Definition create (cacheSize : positive) : t := mk cacheSize [].

Fixpoint assoc (k : string) (l : list (string * value)) : option value :=
  match l with
  | [] => None
  | (k', v) :: l' => if String.eqb k k' then Some v else assoc k l'
  end.

Fixpoint remove (k : string) (l : list (string * value)) : list (string * value) :=
  match l with
  | [] => []
  | (k', v) :: l' => if String.eqb k k' then remove k l' else (k', v) :: remove k l'
  end.

(** What the cache holds for [k], without touching the recency order. *)
Definition peek (c : t) (k : string) : option value := assoc k (entries c).

Definition get (c : t) (k : string) : value * t :=
  match assoc k (entries c) with
  | Some v => (v, mk (max c) ((k, v) :: remove k (entries c)))
  | None => (VUndefined, c)
  end.

Definition set (c : t) (k : string) (v : value) : t :=
  mk (max c) (take (Pos.to_nat (max c)) ((k, v) :: remove k (entries c))).

Definition reset (c : t) : t := mk (max c) [].

End LRU.

(** ** The InMemory connector *)

Module InMemory.

(** [this.games = new Map()]. *)
Abbreviation games := (gmap string value).

Definition create : games := ∅.

(** [async set(id, state) { return await this.games.set(id, state); }] *)
Definition set (id : string) (state : value) (g : games) : games :=
  <[id := state]> g.

(** [async get(id) { return await this.games.get(id); }] *)
Definition get (id : string) (g : games) : value :=
  default VUndefined (g !! id).

(** [async has(id) { return await this.games.has(id); }] *)
Definition has (id : string) (g : games) : bool :=
  bool_decide (is_Some (g !! id)).

End InMemory.

(** ** The memory of a cache-backed connector *)

(** Exceptions: a [TypeError] of the language itself, or the reason of a
    rejected store promise, which [await] rethrows. *)
Inductive exn : Type :=
| TypeError
| Rejection (reason : value).

Inductive result (A : Type) : Type :=
| Ok (a : A)
| Err (e : exn).
Arguments Ok {A} a.
Arguments Err {A} e.

(** The handles a Firebase connector writes through: [this.db.ref(id)] for
    the RTD engine, [this.db.collection(this.dbname).doc(id)] for Firestore. *)
Inductive engine : Type := RTD | Firestore.

Inductive fbcol : Type :=
| FbRef (id : string)
| FbDoc (dbname id : string).

(** The calls on the store drivers.  [FindOne] is the lookup by id of the
    store interface, a method of the Sequelize model [this.game]; [SQL.get]
    and [SQL.has] ask for it on [this.db] (see [db_findOne]), so that no
    method of the connectors sends it. *)
Inductive request : Type :=
| Authenticate                              (* this.db.authenticate() *)
| Sync                                      (* this.game.sync() *)
| Upsert (id : string) (ctx : value)        (* this.game.upsert({ id, ctx }) *)
| FindOne (id : string)                     (* this.game.findOne({ where: { id } }) *)
| ClientConnect                             (* this.client.connect(this.url) *)
| Insert (col : string) (doc : value)       (* col.insert(state) *)
| FindLatest (col : string)                 (* col.find().sort({ _id: -1 }).limit(1).toArray() *)
| FindFirst (col : string)                  (* col.find().limit(1).toArray() *)
| ColSet (col : fbcol) (doc : value)        (* col.set(state) *)
| ColOnce (col : fbcol)                     (* col.once('value') *)
| ColGet (col : fbcol).                     (* col.get() *)

(** What a store promise settles to: a value, an array of documents
    ([toArray()]), a Firebase snapshot (its [val()]/[data()] and its
    [exists]), or a rejection. *)
Inductive response : Type :=
| Resolved (v : value)
| Docs (docs : list value)
| Snapshot (doc : value) (exists_ : bool)
| Rejected (reason : value).

(** [heap]: the objects; [cache]: [this.cache]; [db]: whether [this.db] has
    been assigned; [console]: the arguments of each [console.error] call;
    [detached]: driver calls whose promise is dropped without [await];
    [oid]: the next ObjectID of the MongoDB driver, which generates them in
    the process (see [assign_oid]).
    The [console.log] tracing of the Firebase connector is left out. *)
Record mem : Type := Mem {
  heap : JS.heap;
  cache : LRU.t;
  db : bool;
  console : list (list value);
  detached : list request;
  oid : Z
}.

Definition with_heap (h : JS.heap) (m : mem) : mem :=
  Mem h (cache m) (db m) (console m) (detached m) (oid m).
Definition with_cache (c : LRU.t) (m : mem) : mem :=
  Mem (heap m) c (db m) (console m) (detached m) (oid m).
Definition with_db (b : bool) (m : mem) : mem :=
  Mem (heap m) (cache m) b (console m) (detached m) (oid m).

(** A computation on the connector's memory.  It ends with a value or an
    exception, the memory being kept in both cases; [None] means that the run
    left the modelled fragment of the language (see [JS.to_number]). *)
Definition M (A : Type) : Type := mem → option (result A * mem).

Definition ret {A} (a : A) : M A := λ m, Some (Ok a, m).
Definition throw {A} (e : exn) : M A := λ m, Some (Err e, m).
Definition unmodelled {A} : M A := λ _, None.

Definition bind {A B} (c : M A) (f : A → M B) : M B := λ m,
  match c m with
  | Some (Ok a, m') => f a m'
  | Some (Err e, m') => Some (Err e, m')
  | None => None
  end.

Notation "'let*' x ':=' c 'in' k" := (bind c (λ x, k))
  (at level 10, x name, c at level 100, k at level 200).
Notation "c ';;;' k" := (bind c (λ _, k))
  (at level 100, k at level 200, right associativity).

(** An [async] method run up to its [await]: it has returned, or it is
    suspended on a store request with the rest of its body. *)
#[warnings="-register-all"]
Inductive async (A : Type) : Type :=
| Return (a : A)
| Await (q : request) (k : response → mem → option (result (async A) * mem)).
Arguments Return {A} a.
Arguments Await {A} q k.

(** *** Primitive steps *)

(** [this.cache.get(id)] *)
Definition cache_get (id : string) : M value := λ m,
  let '(v, c) := LRU.get (cache m) id in Some (Ok v, with_cache c m).

(** [this.cache.set(id, v)] *)
Definition cache_set (id : string) (v : value) : M unit := λ m,
  Some (Ok tt, with_cache (LRU.set (cache m) id v) m).

(** [v.p]: a [TypeError] on [undefined] and [null]; property reads on the
    other primitives go through wrapper objects and are not modelled. *)
Definition get_prop (v : value) (p : string) : M value := λ m,
  match v with
  | VUndefined | VNull => Some (Err TypeError, m)
  | VRef l => Some (Ok (field (heap m) l p), m)
  | VBool _ | VNum _ | VStr _ => None
  end.

(** [delete v.p] *)
Definition delete_prop (v : value) (p : string) : M unit := λ m,
  match v with
  | VUndefined | VNull => Some (Err TypeError, m)
  | VRef l => Some (Ok tt, with_heap (alter (delete p) l (heap m)) m)
  | VBool _ | VNum _ | VStr _ => None
  end.

(** [a >= b] *)
Definition js_ge (a b : value) : M bool := λ m,
  match JS.ge a b with
  | Some r => Some (Ok r, m)
  | None => None
  end.

(** [console.error(...args)] *)
Definition console_error (args : list value) : M unit := λ m,
  Some (Ok tt, Mem (heap m) (cache m) (db m) (app (console m) [args]) (detached m)
                   (oid m)).

(** A driver call whose promise is not awaited. *)
Definition detach (q : request) : M unit := λ m,
  Some (Ok tt, Mem (heap m) (cache m) (db m) (console m) (app (detached m) [q])
                   (oid m)).

(** A method call on [this.db]: a [TypeError] while it is [undefined]. *)
Definition on_db {A} (a : A) : M A := λ m,
  if db m then Some (Ok a, m) else Some (Err TypeError, m).

(** [this.db.findOne({ where: { id } })] in the SQL connector.  [this.db] is
    the Sequelize instance ([this.db = new Sequelize(...)] in the
    constructors of SQLite and MySQL) and the model, which has [findOne], is
    [this.game = this.db.define(...)]: [upsert] and [sync] are called on
    [this.game], [authenticate] on [this.db].  The instance has no [findOne]
    property, and calling [undefined] is a [TypeError], thrown before there
    is a promise to await. *)
Definition db_findOne (id : string) : M request := throw TypeError.

(** What [col.insert(state)] does before it returns its promise.  Modelled
    from the behaviour of the MongoDB driver, a dependency: a document that
    has no [_id] is given a new ObjectID, on the very object that was passed
    in.  [Mongo.set] has just deleted [_id], so the assignment always takes
    place.  ObjectIDs are numbered in the order of their generation. *)
Definition assign_oid (state : value) : M unit := λ m,
  match state with
  | VRef l =>
      Some (Ok tt, Mem (alter (insert "_id" (VNum (oid m))) l (heap m)) (cache m) (db m)
                       (console m) (detached m) (oid m + 1))
  | _ => None
  end.

(** The value of [await p] once [p] has settled, by the shape the driver
    call resolves to. *)
Definition awaited (r : response) : M value :=
  match r with
  | Resolved v => ret v
  | Rejected e => throw (Rejection e)
  | Docs _ | Snapshot _ _ => unmodelled
  end.

Definition awaited_docs (r : response) : M (list value) :=
  match r with
  | Docs ds => ret ds
  | Rejected e => throw (Rejection e)
  | Resolved _ | Snapshot _ _ => unmodelled
  end.

Definition awaited_snapshot (r : response) : M (value * bool) :=
  match r with
  | Snapshot d e => ret (d, e)
  | Rejected e => throw (Rejection e)
  | Resolved _ | Docs _ => unmodelled
  end.

(** The staleness guard shared by the three [set] methods:
    [cacheValue && cacheValue._stateID >= state._stateID]. *)
Definition stale (cacheValue state : value) : M bool :=
  if truthy cacheValue then
    let* a := get_prop cacheValue "_stateID" in
    let* b := get_prop state "_stateID" in
    js_ge a b
  else ret false.

(** ** The SQL connector ([src/server/db/sql.js]) *)

(** [this.db] is assigned by the constructors of the SQLite and MySQL
    subclasses, so the methods below never find it [undefined].  [get] and
    [has] throw at [this.db.findOne] whenever the cache has no entry; the
    code that follows their [await] runs in no execution, and is embedded as
    [get_resume] and [has_resume] for what it would do with an answer. *)
Module SQL.

Definition connect_resume (r : response) : M (async value) :=
  let* c := awaited r in
  if truthy c then
    console_error [VStr "Connection error"; c];;;
    ret (Return VUndefined)
  else
    detach Sync;;;
    ret (Return VUndefined).

Definition connect : M (async value) :=
  ret (Await Authenticate connect_resume).

Definition set_resume (r : response) : M (async value) :=
  let* _ := awaited r in
  ret (Return VUndefined).

Definition set (id : string) (state : value) : M (async value) :=
  let* cacheValue := cache_get id in
  let* old := stale cacheValue state in
  if old then ret (Return VUndefined)
  else
    cache_set id state;;;
    delete_prop state "_id";;;
    ret (Await (Upsert id state) set_resume).

Definition get_resume (id : string) (r : response) : M (async value) :=
  let* doc := awaited r in
  let* cacheValue := cache_get id in
  let* oldStateID :=
    if defined cacheValue then get_prop cacheValue "_stateID" else ret (VNum 0) in
  let* newStateID :=
    if truthy doc then get_prop doc "_stateID" else ret (VNum (-1)) in
  let* newer := js_ge newStateID oldStateID in
  (if newer then cache_set id doc else ret tt);;;
  let* ctx := get_prop doc "ctx" in
  ret (Return ctx).

Definition get (id : string) : M (async value) :=
  let* cacheValue := cache_get id in
  if defined cacheValue then ret (Return cacheValue)
  else
    let* q := db_findOne id in
    ret (Await q (get_resume id)).

Definition has_resume (r : response) : M (async value) :=
  let* doc := awaited r in
  ret (Return (VBool (not_null doc))).

Definition has (id : string) : M (async value) :=
  let* cacheValue := cache_get id in
  if defined cacheValue then ret (Return (VBool true))
  else
    let* q := db_findOne id in
    ret (Await q has_resume).

End SQL.

(** ** The Mongo connector *)

Module Mongo.

(** [docs[0]] *)
Definition first (docs : list value) : value := default VUndefined (head docs).

(** [this.db = c.db(this.dbname)]: the call is a [TypeError] unless the
    promise resolved to an object, the driver's client. *)
Definition connect_resume (r : response) : M (async value) :=
  let* c := awaited r in
  match c with
  | VRef _ => λ m, Some (Ok (Return VUndefined), with_db true m)
  | _ => throw TypeError
  end.

Definition connect : M (async value) :=
  ret (Await ClientConnect connect_resume).

Definition set_resume (r : response) : M (async value) :=
  let* _ := awaited r in
  ret (Return VUndefined).

Definition set (id : string) (state : value) : M (async value) :=
  let* cacheValue := cache_get id in
  let* old := stale cacheValue state in
  if old then ret (Return VUndefined)
  else
    cache_set id state;;;
    let* col := on_db id in
    delete_prop state "_id";;;
    assign_oid state;;;
    ret (Await (Insert col state) set_resume).

Definition get_resume (id : string) (r : response) : M (async value) :=
  let* docs := awaited_docs r in
  let* cacheValue := cache_get id in
  let* oldStateID :=
    if defined cacheValue then get_prop cacheValue "_stateID" else ret (VNum 0) in
  let* newStateID :=
    if (0 <? length docs)%nat then get_prop (first docs) "_stateID"
    else ret (VNum (-1)) in
  let* newer := js_ge newStateID oldStateID in
  (if newer then cache_set id (first docs) else ret tt);;;
  ret (Return (first docs)).

Definition get (id : string) : M (async value) :=
  let* cacheValue := cache_get id in
  if defined cacheValue then ret (Return cacheValue)
  else
    let* col := on_db id in
    ret (Await (FindLatest col) (get_resume id)).

Definition has_resume (r : response) : M (async value) :=
  let* docs := awaited_docs r in
  ret (Return (VBool (0 <? length docs)%nat)).

Definition has (id : string) : M (async value) :=
  let* cacheValue := cache_get id in
  if defined cacheValue then ret (Return (VBool true))
  else
    let* col := on_db id in
    ret (Await (FindFirst col) has_resume).

End Mongo.

(** ** The Firebase connector *)

Module Firebase.

Section Connector.

(** [this.engine] and [this.dbname], fixed by the constructor. *)
Variable engine_ : engine.
Variable dbname : string.

Definition col_of (id : string) : fbcol :=
  match engine_ with
  | RTD => FbRef id
  | Firestore => FbDoc dbname id
  end.

Definition read_of (col : fbcol) : request :=
  match engine_ with
  | RTD => ColOnce col
  | Firestore => ColGet col
  end.

(** [connect] has no [await]: [initializeApp] and [firestore()] or
    [database()] are synchronous driver calls, whose outcome is [driver]. *)
Definition connect (driver : result value) : M (async value) :=
  match driver with
  | Err e => throw e
  | Ok _ => λ m, Some (Ok (Return VUndefined), with_db true m)
  end.

Definition set_resume (r : response) : M (async value) :=
  let* _ := awaited r in
  ret (Return VUndefined).

Definition set (id : string) (state : value) : M (async value) :=
  let* cacheValue := cache_get id in
  let* old := stale cacheValue state in
  if old then ret (Return VUndefined)
  else
    cache_set id state;;;
    let* col := on_db (col_of id) in
    delete_prop state "_id";;;
    ret (Await (ColSet col state) set_resume).

Definition get_resume (id : string) (r : response) : M (async value) :=
  let* data := awaited_snapshot r in
  let doc := fst data in
  let* cacheValue := cache_get id in
  let* oldStateID :=
    if defined cacheValue then get_prop cacheValue "_stateID" else ret (VNum 0) in
  let* newStateID :=
    if truthy doc then get_prop doc "_stateID" else ret (VNum (-1)) in
  let* newer := js_ge newStateID oldStateID in
  (if newer then cache_set id doc else ret tt);;;
  ret (Return doc).

Definition get (id : string) : M (async value) :=
  let* cacheValue := cache_get id in
  if defined cacheValue then ret (Return cacheValue)
  else
    let* col := on_db (col_of id) in
    ret (Await (read_of col) (get_resume id)).

Definition has_resume (r : response) : M (async value) :=
  let* data := awaited_snapshot r in
  ret (Return (VBool (snd data))).

Definition has (id : string) : M (async value) :=
  let* cacheValue := cache_get id in
  if defined cacheValue then ret (Return (VBool true))
  else
    let* col := on_db (col_of id) in
    ret (Await (read_of col) has_resume).

End Connector.

End Firebase.

(** ** The three cache-backed connectors behind one name *)

Inductive connector : Type :=
| OfSQL
| OfMongo
| OfFirebase (engine_ : engine) (dbname : string).

Module Connector.

Definition set (b : connector) : string → value → M (async value) :=
  match b with
  | OfSQL => SQL.set
  | OfMongo => Mongo.set
  | OfFirebase e d => Firebase.set e d
  end.

Definition set_resume (b : connector) : response → M (async value) :=
  match b with
  | OfSQL => SQL.set_resume
  | OfMongo => Mongo.set_resume
  | OfFirebase _ _ => Firebase.set_resume
  end.

Definition get (b : connector) : string → M (async value) :=
  match b with
  | OfSQL => SQL.get
  | OfMongo => Mongo.get
  | OfFirebase e d => Firebase.get e d
  end.

Definition get_resume (b : connector) : string → response → M (async value) :=
  match b with
  | OfSQL => SQL.get_resume
  | OfMongo => Mongo.get_resume
  | OfFirebase _ _ => Firebase.get_resume
  end.

Definition has (b : connector) : string → M (async value) :=
  match b with
  | OfSQL => SQL.has
  | OfMongo => Mongo.has
  | OfFirebase e d => Firebase.has e d
  end.

Definition has_resume (b : connector) : response → M (async value) :=
  match b with
  | OfSQL => SQL.has_resume
  | OfMongo => Mongo.has_resume
  | OfFirebase _ _ => Firebase.has_resume
  end.

End Connector.

(** ** Interleavings *)

(** The atomic pieces of the methods.  A method call runs up to its [await];
    a resumption runs the rest with the answer of the store, which is any
    [response] at all: the store is shared with other processes and may be
    slow or stale.  [Deliver] is the driver materialising a document as a
    new object. *)
Inductive event : Type :=
| CallSet (id : string) (state : value)
| ResumeSet (r : response)
| CallGet (id : string)
| ResumeGet (id : string) (r : response)
| CallHas (id : string)
| ResumeHas (r : response)
| Deliver (o : obj).

Definition alloc (o : obj) (h : JS.heap) : loc * JS.heap :=
  let l := fresh (dom h) in (l, <[l := o]> h).

(** The memory after one event, whether the piece returned or threw. *)
Definition exec (b : connector) (ev : event) (m : mem) : option mem :=
  match ev with
  | CallSet id state => snd <$> Connector.set b id state m
  | ResumeSet r => snd <$> Connector.set_resume b r m
  | CallGet id => snd <$> Connector.get b id m
  | ResumeGet id r => snd <$> Connector.get_resume b id r m
  | CallHas id => snd <$> Connector.has b id m
  | ResumeHas r => snd <$> Connector.has_resume b r m
  | Deliver o => Some (with_heap (snd (alloc o (heap m))) m)
  end.

Fixpoint run (b : connector) (evs : list event) (m : mem) : option mem :=
  match evs with
  | [] => Some m
  | ev :: evs' => exec b ev m ≫= run b evs'
  end.

(** The stateID of the state the cache holds for [id], when it holds an
    object whose [_stateID] is an integer. *)
Definition cached_stateID (m : mem) (id : string) : option Z :=
  match LRU.peek (cache m) id with
  | Some (VRef l) =>
      match field (heap m) l "_stateID" with
      | VNum n => Some n
      | _ => None
      end
  | _ => None
  end.

(** ** The durable stores *)

(** Modelled from the spec: the drivers (Sequelize, the MongoDB client, the
    Firebase SDK) are dependencies and not part of the sources; what follows
    is the store interface of section 6 of the specification, as a store that
    never fails.  A write serialises the object it is given, as it is when
    the request is served; a read builds new objects.  Nested objects stay
    shared by reference: the connectors never look below the top-level
    properties. *)
Module Store.

Section Keyed.
Context {K V : Type} `{EqDecision K}.

(** Create-or-replace, keyed: replace the row of that key if there is one,
    add a row otherwise. *)
Fixpoint upsert (k : K) (v : V) (rows : list (K * V)) : list (K * V) :=
  match rows with
  | [] => [(k, v)]
  | (k', v') :: rows' =>
      if decide (k = k') then (k, v) :: rows' else (k', v') :: upsert k v rows'
  end.

Fixpoint find (k : K) (rows : list (K * V)) : option V :=
  match rows with
  | [] => None
  | (k', v') :: rows' => if decide (k = k') then Some v' else find k rows'
  end.

End Keyed.

#[global] Instance fbcol_eq_dec : EqDecision fbcol.
Proof. solve_decision. Defined.

(** [table]: the rows (id, ctx) of the SQL [game] model.
    [collections]: the documents of each Mongo collection, in insertion
    order; every document carries the [_id] the driver gave it before it was
    sent (see [assign_oid]), and ObjectIDs grow with time, so the greatest
    [_id] is the last inserted.
    [documents]: the Firebase documents, by handle. *)
Record t : Type := mk {
  table : list (string * obj);
  collections : gmap string (list obj);
  documents : list (fbcol * obj)
}.

Definition empty : t := mk [] ∅ [].

Definition with_table (tb : list (string * obj)) (s : t) : t :=
  mk tb (collections s) (documents s).
Definition with_documents (ds : list (fbcol * obj)) (s : t) : t :=
  mk (table s) (collections s) ds.

Definition collection (s : t) (col : string) : list obj :=
  default [] (collections s !! col).

(** The properties of the object a document is taken from. *)
Definition snapshot (h : JS.heap) (l : loc) : obj := default ∅ (h !! l).

(** An array of at most one document, each a new object. *)
Definition deliver (o : option obj) (h : JS.heap) : list value * JS.heap :=
  match o with
  | Some d => let '(l, h') := alloc d h in ([VRef l], h')
  | None => ([], h)
  end.

(** The store serving one request.  Writes of anything but an object are
    not modelled.  [Insert] adds the document, [_id] included, to its
    collection. *)
Definition perform (q : request) (h : JS.heap) (s : t)
  : option (response * JS.heap * t) :=
  match q with
  | Authenticate | Sync => Some (Resolved VUndefined, h, s)
  | Upsert id (VRef l) =>
      Some (Resolved (VBool (bool_decide (find id (table s) = None))), h,
            with_table (upsert id (snapshot h l) (table s)) s)
  | FindOne id =>
      match find id (table s) with
      | Some ctx =>
          let '(l1, h1) := alloc ctx h in
          let '(l2, h2) := alloc {[ "id" := VStr id; "ctx" := VRef l1 ]} h1 in
          Some (Resolved (VRef l2), h2, s)
      | None => Some (Resolved VNull, h, s)
      end
  | ClientConnect =>
      let '(l, h') := alloc ∅ h in Some (Resolved (VRef l), h', s)
  | Insert col (VRef l) =>
      Some (Resolved VUndefined, h,
            mk (table s)
               (<[col := app (collection s col) [snapshot h l]]> (collections s))
               (documents s))
  | FindLatest col =>
      let '(docs, h') := deliver (last (collection s col)) h in
      Some (Docs docs, h', s)
  | FindFirst col =>
      let '(docs, h') := deliver (head (collection s col)) h in
      Some (Docs docs, h', s)
  | ColSet col (VRef l) =>
      Some (Resolved VUndefined, h,
            with_documents (upsert col (snapshot h l) (documents s)) s)
  | ColOnce col | ColGet col =>
      match find col (documents s) with
      | Some d => let '(l, h') := alloc d h in Some (Snapshot (VRef l) true, h', s)
      | None => Some (Snapshot VNull false, h, s)
      end
  | Upsert _ _ | Insert _ _ | ColSet _ _ => None
  end.

End Store.

(** ** Awaited calls *)

(** A connector together with its store. *)
Definition world : Type := mem * Store.t.

(** Driving a suspended method to its end against the store: each request is
    served at once and the method resumed with the answer. *)
Fixpoint settle {A} (a : async A) (m : mem) (s : Store.t)
  : option (result A * world) :=
  match a with
  | Return x => Some (Ok x, (m, s))
  | Await q k =>
      match Store.perform q (heap m) s with
      | Some (r, h', s') =>
          match k r (with_heap h' m) with
          | Some (Ok a', m') => settle a' m' s'
          | Some (Err e, m') => Some (Err e, (m', s'))
          | None => None
          end
      | None => None
      end
  end.

(** [await method(...)] from a caller that does nothing in between. *)
Definition call {A} (p : M (async A)) (w : world) : option (result A * world) :=
  match p (fst w) with
  | Some (Ok a, m) => settle a m (snd w)
  | Some (Err e, m) => Some (Err e, (m, snd w))
  | None => None
  end.

(** [db.cache.reset()], as the tests do to force a read from the store. *)
Definition cache_reset (w : world) : world :=
  (with_cache (LRU.reset (cache (fst w))) (fst w), snd w).

(** A newly constructed connector with cache capacity [cacheSize] on an
    empty store, before [connect]. *)
Definition fresh_world (cacheSize : positive) : world :=
  (Mem ∅ (LRU.create cacheSize) false [] [] 0, Store.empty).

(** ** Vocabulary of the properties *)

(** [set(id, state)] passes its staleness guard in [m]: the guard
    expression, on what the cache holds for [id], is false. *)
Definition passes_guard (m : mem) (id : string) (state : value) : Prop :=
  stale (default VUndefined (LRU.peek (cache m) id)) state m = Some (Ok false, m).

(** The documents the store of connector [b] holds for game [id]. *)
Definition held (b : connector) (s : Store.t) (id : string) : list obj :=
  match b with
  | OfSQL => (filter (λ row, row.1 = id) (Store.table s)).*2
  | OfMongo => Store.collection s id
  | OfFirebase e d =>
      (filter (λ row, row.1 = Firebase.col_of e d id) (Store.documents s)).*2
  end.

(** A sequence of awaited [set] calls. *)
Fixpoint set_all (b : connector) (calls : list (string * value)) (w : world)
  : option world :=
  match calls with
  | [] => Some w
  | (id, state) :: calls' =>
      match call (Connector.set b id state) w with
      | Some (_, w') => set_all b calls' w'
      | None => None
      end
  end.

(** What the re-check of [get] is given by the store: the document it
    compares and caches, and whether one was found. *)
Definition fetched (b : connector) (r : response) : option (value * bool) :=
  match b, r with
  | OfSQL, Resolved doc => Some (doc, truthy doc)
  | OfMongo, Docs docs => Some (Mongo.first docs, (0 <? length docs)%nat)
  | OfFirebase _ _, Snapshot doc _ => Some (doc, truthy doc)
  | _, _ => None
  end.

(** The re-check formula in the words of the specification: the stateID of
    the cache entry if there is one and 0 otherwise; the stateID of the store
    document if one was found and -1 otherwise. *)
Definition spec_oldStateID (m : mem) (id : string) : value :=
  match LRU.peek (cache m) id with
  | Some (VRef l) => field (heap m) l "_stateID"
  | _ => VNum 0
  end.

Definition spec_newStateID (h : JS.heap) (doc : value) (found : bool) : value :=
  match doc, found with
  | VRef l, true => field h l "_stateID"
  | _, _ => VNum (-1)
  end.

(** [connect] has assigned [this.db]; the SQL constructors already do. *)
Definition connected (b : connector) (m : mem) : Prop :=
  b = OfSQL ∨ db m = true.

(** The store write the [set] of connector [b] suspends on. *)
Definition write_request (b : connector) (id : string) (state : value) : request :=
  match b with
  | OfSQL => Upsert id state
  | OfMongo => Insert id state
  | OfFirebase e d => ColSet (Firebase.col_of e d id) state
  end.

(** The store read the [get] and the [has] of connector [b] suspend on;
    for SQL, the lookup that they do not get to send. *)
Definition read_request (b : connector) (id : string) : request :=
  match b with
  | OfSQL => FindOne id
  | OfMongo => FindLatest id
  | OfFirebase e d => Firebase.read_of e (Firebase.col_of e d id)
  end.

Definition exists_request (b : connector) (id : string) : request :=
  match b with
  | OfSQL => FindOne id
  | OfMongo => FindFirst id
  | OfFirebase e d => Firebase.read_of e (Firebase.col_of e d id)
  end.

(** The cache once [this.cache.get(id)] has marked [id] as recently used. *)
Definition touched (m : mem) (id : string) : LRU.t := (LRU.get (cache m) id).2.

(** What the [set] of connector [b] makes of the state object [o] before
    it suspends, which is also the document it hands to the store: [o]
    without its [_id], to which the Mongo driver gives a new one. *)
Definition document (b : connector) (m : mem) (o : obj) : obj :=
  match b with
  | OfMongo => <["_id" := VNum (oid m)]> o
  | _ => delete "_id" o
  end.

(** The memory once a [set] of the object at [l] has passed the guard:
    the reference is cached and the object has become the document. *)
Definition after_set (b : connector) (id : string) (l : loc) (m : mem) : mem :=
  Mem (alter (document b m) l (heap m)) (LRU.set (touched m id) id (VRef l))
      (db m) (console m) (detached m)
      (match b with OfMongo => oid m + 1 | _ => oid m end).
Arguments after_set b id l%_positive m.

(** The store of connector [b] once it has served the write of document [o]
    for game [id]: a keyed create-or-replace for SQL and Firebase, one more
    document in the collection of the game for Mongo. *)
Definition persisted (b : connector) (id : string) (o : obj) (s : Store.t) : Store.t :=
  match b with
  | OfSQL => Store.with_table (Store.upsert id o (Store.table s)) s
  | OfMongo =>
      Store.mk (Store.table s)
        (<[id := app (Store.collection s id) [o]]> (Store.collections s))
        (Store.documents s)
  | OfFirebase e d =>
      Store.with_documents
        (Store.upsert (Firebase.col_of e d id) o (Store.documents s)) s
  end.

(** ** Concrete scenarios *)

(** The objects and memories the examples below are run on, in the manner
    of the repository's tests: game states that carry only a [_stateID], one
    that was read back from a store earlier and still carries its [_id], and
    the [{ a: 1 }] of the basic tests. *)
Module Scenario.

Definition state0 : obj := {[ "_stateID" := VNum 0 ]}.
Definition state1 : obj := {[ "_stateID" := VNum 1; "_id" := VNum 7 ]}.
Definition below_zero : obj := {[ "_stateID" := VNum (-1) ]}.
Definition plain : obj := {[ "a" := VNum 1 ]}.

Definition objects : JS.heap :=
  {[ 1%positive := state1; 2%positive := state0;
     3%positive := below_zero; 4%positive := plain ]}.

(** A connected connector holding [entries] in a cache of capacity
    [cacheSize]. *)
Definition memory (cacheSize : positive) (entries : list (string * value)) : mem :=
  Mem objects (LRU.mk cacheSize entries) true [] [] 0.

End Scenario.

(** ** Construction *)

(** The options objects handed to the constructors and the values of
    [process.env]: literals that are read once and never mutated. *)
#[warnings="-register-all"]
Inductive json : Type :=
| JUndefined
| JNull
| JBool (b : bool)
| JNum (n : Z)
| JStr (s : string)
| JObj (fields : gmap string json).

(** ToBoolean. *)
Definition jtruthy (v : json) : bool :=
  match v with
  | JUndefined | JNull => false
  | JBool b => b
  | JNum n => negb (Z.eqb n 0)
  | JStr s => negb (String.eqb s "")
  | JObj _ => true
  end.

(** [a || b] *)
Definition jor (a b : json) : json := if jtruthy a then a else b.

(** [v === undefined] *)
Definition is_undefined (v : json) : bool :=
  match v with JUndefined => true | _ => false end.


(** A constructor run: the object, an exception, or [None] when the run
    leaves the modelled fragment. *)
Definition C (A : Type) : Type := option (result A).

Definition cbind {A B} (c : C A) (f : A → C B) : C B :=
  match c with
  | Some (Ok a) => f a
  | Some (Err e) => Some (Err e)
  | None => None
  end.

Notation "'let+' x ':=' c 'in' k" := (cbind c (λ x, k))
  (at level 10, x name, c at level 100, k at level 200).

(** The read of property [p] that a destructuring pattern [{ p }] or a
    member access [o.p] makes: a [TypeError] on [undefined] and [null];
    reads on the other primitives are not modelled. *)
Definition jprop (o : json) (p : string) : C json :=
  match o with
  | JUndefined | JNull => Some (Err TypeError)
  | JObj fields => Some (Ok (default JUndefined (fields !! p)))
  | JBool _ | JNum _ | JStr _ => None
  end.

(** [if (cacheSize === undefined) cacheSize = 1000]. *)
Definition default_cacheSize (cacheSize : json) : json :=
  if is_undefined cacheSize then JNum 1000 else cacheSize.

(** [new LRU({ max: cacheSize })], for a positive integer capacity; what
    the package does with any other [max] is not modelled. *)
Definition new_LRU (cacheSize : json) : C LRU.t :=
  match cacheSize with
  | JNum n => if (0 <? n)%Z then Some (Ok (LRU.create (Z.to_pos n))) else None
  | _ => None
  end.

(** [mock || real]: the driver a connector talks to. *)
Inductive sdk : Type :=
| RealDriver
| MockDriver (mock : json).

Definition sdk_or (mock : json) : sdk :=
  if jtruthy mock then MockDriver mock else RealDriver.

(** [this.db] of an SQL connector: [new Sequelize(uri)] or
    [new Sequelize(database, username, password, options)]. *)
Inductive sequelize : Type :=
| SequelizeUri (uri : string)
| SequelizeOptions (database username password : json) (options : gmap string json).

(** [Object.assign({ max: 5, idle: 10000, acquire: 30000 }, pool)]: the own
    properties of [pool] over the defaults; [undefined], [null], numbers and
    booleans contribute none, and a string source is not modelled. *)
Definition pool_defaults : gmap string json :=
  {[ "max" := JNum 5; "idle" := JNum 10000; "acquire" := JNum 30000 ]}.

Definition assign_pool (pool : json) : C (gmap string json) :=
  match pool with
  | JObj fields => Some (Ok (fields ∪ pool_defaults))
  | JStr _ => None
  | _ => Some (Ok pool_defaults)
  end.

Module New.

(** The fields the constructors assign. *)
Record mongo : Type := MongoObject {
  mongo_client : sdk;
  mongo_url : json;
  mongo_dbname : json;
  mongo_cache : LRU.t
}.

Record firebase : Type := FirebaseObject {
  firebase_client : sdk;
  firebase_engine : engine;
  firebase_apiKey : json;
  firebase_authDomain : json;
  firebase_databaseURL : json;
  firebase_projectId : json;
  firebase_dbname : json;
  firebase_cache : LRU.t
}.

Record sql : Type := SqlObject {
  sql_db : sequelize;
  sql_cache : LRU.t
}.

(** [new Mongo({ url, dbname, cacheSize, mockClient })] *)
Definition Mongo (arg : json) : C mongo :=
  let+ url := jprop arg "url" in
  let+ dbname := jprop arg "dbname" in
  let+ cacheSize := jprop arg "cacheSize" in
  let+ mockClient := jprop arg "mockClient" in
  let cacheSize := default_cacheSize cacheSize in
  let dbname := if is_undefined dbname then JStr "bgio" else dbname in
  let+ cache := new_LRU cacheSize in
  Some (Ok (MongoObject (sdk_or mockClient) url dbname cache)).

(** [new Firebase({ config, dbname, cacheSize, mockFirebase })] *)
Definition Firebase (arg : json) : C firebase :=
  let+ config := jprop arg "config" in
  let+ dbname := jprop arg "dbname" in
  let+ cacheSize := jprop arg "cacheSize" in
  let+ mockFirebase := jprop arg "mockFirebase" in
  let cacheSize := default_cacheSize cacheSize in
  let dbname := if is_undefined dbname then JStr "bgio" else dbname in
  let config := if is_undefined config then JObj ∅ else config in
  let+ config_engine := jprop config "engine" in
  let engine_ :=
    match config_engine with
    | JStr s => if String.eqb s "RTD" then RTD else Firestore
    | _ => Firestore
    end in
  let+ apiKey := jprop config "apiKey" in
  let+ authDomain := jprop config "authDomain" in
  let+ databaseURL := jprop config "databaseURL" in
  let+ projectId := jprop config "projectId" in
  let+ cache := new_LRU cacheSize in
  Some (Ok (FirebaseObject (sdk_or mockFirebase) engine_ apiKey authDomain
              databaseURL projectId dbname cache)).

(** [this.game = this.db.define('game', GameModel)]: a [TypeError] when no
    branch has assigned [this.db]. *)
Definition define (db : option sequelize) : C sequelize :=
  match db with
  | Some d => Some (Ok d)
  | None => Some (Err TypeError)
  end.

(** [new SQLite({ path, config, cacheSize })]; [path] goes into a template
    string, which is modelled for strings. *)
Definition SQLite (arg : json) : C sql :=
  let+ path := jprop arg "path" in
  let+ config := jprop arg "config" in
  let+ cacheSize := jprop arg "cacheSize" in
  let cacheSize := default_cacheSize cacheSize in
  let+ db :=
    if jtruthy path then
      match path with
      | JStr p => Some (Ok (Some (SequelizeUri ("sqlite://" +:+ p))))
      | _ => None
      end
    else if jtruthy config then
      let+ database := jprop config "database" in
      let+ username := jprop config "username" in
      let+ password := jprop config "password" in
      let+ host := jprop config "host" in
      let+ port := jprop config "port" in
      let+ pool := jprop config "pool" in
      let+ storage := jprop config "storage" in
      let+ pool' := assign_pool pool in
      Some (Ok (Some (SequelizeOptions database username password
        {[ "host" := host; "port" := port; "dialect" := JStr "sqlite";
           "pool" := JObj pool';
           "storage" := jor storage (JStr ":memory:") ]})))
    else Some (Ok None) in
  let+ db' := define db in
  let+ cache := new_LRU cacheSize in
  Some (Ok (SqlObject db' cache)).

(** [new MySQL({ url, config, cacheSize })]; [new Sequelize(url)] is
    modelled for a string. *)
Definition MySQL (arg : json) : C sql :=
  let+ url := jprop arg "url" in
  let+ config := jprop arg "config" in
  let+ cacheSize := jprop arg "cacheSize" in
  let cacheSize := default_cacheSize cacheSize in
  let+ db :=
    if jtruthy url then
      match url with
      | JStr u => Some (Ok (Some (SequelizeUri u)))
      | _ => None
      end
    else if jtruthy config then
      let+ database := jprop config "database" in
      let+ username := jprop config "username" in
      let+ password := jprop config "password" in
      let+ host := jprop config "host" in
      let+ port := jprop config "port" in
      let+ pool := jprop config "pool" in
      let+ pool' := assign_pool pool in
      Some (Ok (Some (SequelizeOptions database username password
        {[ "host" := host; "port" := port; "dialect" := JStr "mysql";
           "pool" := JObj pool' ]})))
    else Some (Ok None) in
  let+ db' := define db in
  let+ cache := new_LRU cacheSize in
  Some (Ok (SqlObject db' cache)).

End New.

(** ** Choosing the backend from the environment ([src/server/db/index.js]) *)

(** What [DBFromEnv] returns.  Each class is imported from a module of its
    own.  [MySQL] and [SQLite] are in the sources.  [./mongo] and
    [./inmemory] are not, and [Mongo] and [InMemory] are taken to be the
    classes of those names above.  [./firebase] and [./postgre] are not
    either, and the tests of [./firebase] construct it with [engine] beside
    [config] and read [db.config], which the [Firebase] class above never
    assigns: it is another class.  The construction of these two is
    recorded by its argument. *)
Inductive database : Type :=
| DbInMemory (games : InMemory.games)
| DbMongo (o : New.mongo)
| DbFirebase (arg : json)
| DbMySQL (o : New.sql)
| DbSQLite (o : New.sql)
| DbPostgreSQL (arg : json).

(** [process.env.NAME]: a string, or [undefined] when the variable is not
    set. *)
Definition getenv (env : gmap string string) (name : string) : json :=
  match env !! name with
  | Some s => JStr s
  | None => JUndefined
  end.

Definition cmap {A B} (f : A → B) (c : C A) : C B :=
  let+ a := c in Some (Ok (f a)).

Definition DBFromEnv (env : gmap string string) : C database :=
  if jtruthy (getenv env "MONGO_URI") then
    cmap DbMongo (New.Mongo (JObj {[ "url" := getenv env "MONGO_URI" ]}))
  else if jtruthy (getenv env "FIREBASE_APIKEY")
          && jtruthy (getenv env "FIREBASE_AUTHDOMAIN")
          && jtruthy (getenv env "FIREBASE_DATABASEURL")
          && jtruthy (getenv env "FIREBASE_PROJECTID") then
    let config := JObj {[ "apiKey" := getenv env "FIREBASE_APIKEY";
                          "authDomain" := getenv env "FIREBASE_AUTHDOMAIN";
                          "databaseURL" := getenv env "FIREBASE_DATABASEURL";
                          "projectId" := getenv env "FIREBASE_PROJECTID" ]} in
    Some (Ok (DbFirebase (JObj {[ "config" := config;
                                  "engine" := getenv env "FIREBASE_ENGINE" ]})))
  else if jtruthy (getenv env "MYSQL_URL") then
    cmap DbMySQL (New.MySQL (JObj {[ "url" := getenv env "MYSQL_URL" ]}))
  else if jtruthy (getenv env "SQLite_URL") then
    cmap DbSQLite (New.SQLite (JObj {[ "url" := getenv env "SQLite_URL" ]}))
  else if jtruthy (getenv env "POSTGRE_URL") then
    Some (Ok (DbPostgreSQL (JObj {[ "url" := getenv env "POSTGRE_URL" ]})))
  else
    Some (Ok (DbInMemory InMemory.create)).


(** The document a read of the store of connector [b] finds for game [id]:
    the row of that key, or the last inserted document of the collection. *)
Definition latest (b : connector) (s : Store.t) (id : string) : option obj :=
  match b with
  | OfSQL => Store.find id (Store.table s)
  | OfMongo => last (Store.collection s id)
  | OfFirebase e d => Store.find (Firebase.col_of e d id) (Store.documents s)
  end.

(** * Properties *)

(** ** The bounded cache *)

Section LRUFacts.
Implicit Types (k : string) (l : list (string * value)) (c : LRU.t).

Lemma assoc_remove_ne k k' l : k ≠ k' → LRU.assoc k' (LRU.remove k l) = LRU.assoc k' l.
Proof.
  intros Hne. induction l as [|[k0 v] l IH]; simpl; [done|].
  destruct (String.eqb_spec k k0) as [->|Hk]; simpl.
  - rewrite IH. destruct (String.eqb_spec k' k0); congruence.
  - by rewrite IH.
Qed.

Lemma assoc_take n l k v : LRU.assoc k (take n l) = Some v → LRU.assoc k l = Some v.
Proof.
  revert n. induction l as [|[k0 v0] l IH]; intros [|n]; simpl; try done.
  destruct (String.eqb k k0); [done|]. apply IH.
Qed.

Lemma peek_get c k k' : LRU.peek (LRU.get c k).2 k' = LRU.peek c k'.
Proof.
  unfold LRU.get, LRU.peek. destruct (LRU.assoc k (LRU.entries c)) eqn:E; simpl; [|done].
  destruct (String.eqb_spec k' k) as [->|Hk]; [done|].
  apply assoc_remove_ne. congruence.
Qed.

Lemma get_value c k : (LRU.get c k).1 = default VUndefined (LRU.peek c k).
Proof.
  unfold LRU.get, LRU.peek. by destruct (LRU.assoc k (LRU.entries c)).
Qed.

(** The cache never holds more entries than its capacity after a [set]. *)
Lemma set_bounded c k v :
  (length (LRU.entries (LRU.set c k v)) ≤ Pos.to_nat (LRU.max c))%nat.
Proof. unfold LRU.set. simpl. rewrite length_take. lia. Qed.

Lemma peek_set_eq c k v : LRU.peek (LRU.set c k v) k = Some v.
Proof.
  unfold LRU.set, LRU.peek. simpl.
  destruct (Pos.to_nat (LRU.max c)) eqn:E; [lia|]. simpl. by rewrite String.eqb_refl.
Qed.

Lemma peek_set_ne c k v k' :
  k ≠ k' → LRU.peek (LRU.set c k v) k' = LRU.peek c k' ∨ LRU.peek (LRU.set c k v) k' = None.
Proof.
  intros Hne. unfold LRU.set, LRU.peek. simpl.
  destruct (LRU.assoc k' (take _ _)) as [w|] eqn:E; [left|by right].
  apply assoc_take in E. simpl in E.
  destruct (String.eqb_spec k' k); [congruence|].
  rewrite <- E. by apply assoc_remove_ne.
Qed.
End LRUFacts.

(** ** What each piece of a method does to the memory *)

Lemma field_delete_id h l l' :
  field (alter (delete "_id") l h) l' "_stateID" = field h l' "_stateID".
Proof.
  unfold field. destruct (decide (l = l')) as [->|Hne].
  - rewrite lookup_alter_eq. destruct (h !! l') as [o|]; simpl; [|done].
    by rewrite lookup_delete_ne.
  - by rewrite lookup_alter_ne.
Qed.

Lemma field_insert_id h l l' v :
  field (alter (insert "_id" v) l h) l' "_stateID" = field h l' "_stateID".
Proof.
  unfold field. destruct (decide (l = l')) as [->|Hne].
  - rewrite lookup_alter_eq. destruct (h !! l') as [o|]; simpl; [|done].
    by rewrite lookup_insert_ne.
  - by rewrite lookup_alter_ne.
Qed.

Lemma document_ne b m o p : p ≠ "_id" → document b m o !! p = o !! p.
Proof.
  intros Hp. destruct b; simpl;
    by rewrite ?lookup_delete_ne, ?lookup_insert_ne.
Qed.

Lemma field_document b m l h l' p :
  p ≠ "_id" → field (alter (document b m) l h) l' p = field h l' p.
Proof.
  intros Hp. unfold field. destruct (decide (l = l')) as [->|Hne].
  - rewrite lookup_alter_eq. destruct (h !! l') as [o|]; simpl; [|done].
    by rewrite document_ne.
  - by rewrite lookup_alter_ne.
Qed.

Lemma alter_insert_delete_id (h : JS.heap) l v :
  alter (insert "_id" v) l (alter (delete "_id") l h) = alter (insert "_id" v) l h.
Proof.
  rewrite alter_alter_eq. apply alter_ext. intros o _ . simpl.
  apply insert_delete_eq.
Qed.

Lemma cached_stateID_inv m id k :
  cached_stateID m id = Some k →
  ∃ l, LRU.peek (cache m) id = Some (VRef l) ∧ field (heap m) l "_stateID" = VNum k.
Proof.
  unfold cached_stateID. intros H. repeat case_match; simplify_eq. eauto.
Qed.

Ltac run_M :=
  unfold Connector.set, Connector.get, Connector.has, Connector.set_resume,
    Connector.get_resume, Connector.has_resume,
    SQL.set, SQL.get, SQL.has, SQL.set_resume, SQL.get_resume, SQL.has_resume,
    Mongo.set, Mongo.get, Mongo.has, Mongo.set_resume, Mongo.get_resume, Mongo.has_resume,
    Firebase.set, Firebase.get, Firebase.has, Firebase.set_resume, Firebase.get_resume,
    Firebase.has_resume, stale, bind, ret, throw, unmodelled, cache_get, cache_set,
    get_prop, delete_prop, js_ge, on_db, db_findOne, assign_oid, awaited, awaited_docs,
    awaited_snapshot in *.

Lemma set_cases b id state m r m' :
  Connector.set b id state m = Some (r, m') →
  let c1 := (LRU.get (cache m) id).2 in
  (cache m' = c1 ∧ heap m' = heap m) ∨
  (cache m' = LRU.set c1 id state ∧
   (∀ l, field (heap m') l "_stateID" = field (heap m) l "_stateID") ∧
   ∀ l k, LRU.peek (cache m) id = Some (VRef l) →
          field (heap m) l "_stateID" = VNum k →
          ∀ l' k', state = VRef l' → field (heap m) l' "_stateID" = VNum k' → (k < k')%Z).
Proof.
  intros H c1. subst c1.
  destruct (LRU.get (cache m) id) as [cv c1] eqn:Hget.
  assert (Hv : ∀ v, LRU.peek (cache m) id = Some v → cv = v).
  { intros v Hp. pose proof (get_value (cache m) id) as Hv.
    rewrite Hget, Hp in Hv. done. }
  simpl.
  assert (Hguard : ∀ k k', JS.ge (VNum k) (VNum k') = Some false → (k < k')%Z).
  { intros k k' Hge. unfold JS.ge in Hge. simpl in Hge.
    injection Hge as Hge. apply Z.leb_gt in Hge. lia. }
  destruct b; run_M; rewrite Hget in H; simpl in H;
    repeat (case_match; simplify_eq/=); eauto;
    right; (split; [done|]);
    (split; [intros ?; by rewrite ?field_insert_id, ?field_delete_id|]);
    intros l1 k1 Hp Hf1 l2 k2 ? Hf2; apply Hv in Hp; simplify_eq/=;
    rewrite ?Hf1, ?Hf2 in *; by apply Hguard.
Qed.

Lemma get_resume_cases b id r m res m' :
  Connector.get_resume b id r m = Some (res, m') →
  let c1 := (LRU.get (cache m) id).2 in
  heap m' = heap m ∧
  (cache m' = cache m ∨ cache m' = c1 ∨
   ∃ doc, cache m' = LRU.set c1 id doc ∧
     ∀ l k, LRU.peek (cache m) id = Some (VRef l) →
            field (heap m) l "_stateID" = VNum k →
            ∀ l' k', doc = VRef l' → field (heap m) l' "_stateID" = VNum k' → (k ≤ k')%Z).
Proof.
  intros H c1. subst c1.
  destruct (LRU.get (cache m) id) as [cv c1] eqn:Hget.
  assert (Hv : ∀ v, LRU.peek (cache m) id = Some v → cv = v).
  { intros v Hp. pose proof (get_value (cache m) id) as Hv.
    rewrite Hget, Hp in Hv. done. }
  simpl.
  assert (Hguard : ∀ k k', JS.ge (VNum k') (VNum k) = Some true → (k ≤ k')%Z).
  { intros k k' Hge. unfold JS.ge in Hge. simpl in Hge.
    injection Hge as Hge. by apply Z.leb_le in Hge. }
  destruct b; run_M; destruct r; simpl in H; simplify_eq/=; eauto;
    rewrite ?Hget in H; simpl in H;
    repeat (case_match; simplify_eq/=); eauto;
    (split; [done|]); right; right; eexists; (split; [done|]);
    intros l1 k1 Hp Hf1 l2 k2 Hd Hf2; try (by destruct docs);
    apply Hv in Hp; simplify_eq/=;
    rewrite ?Hf1, ?Hf2 in *; by apply Hguard.
Qed.

Lemma read_only_cases b m :
  (∀ id r m', Connector.get b id m = Some (r, m') →
     heap m' = heap m ∧ cache m' = (LRU.get (cache m) id).2) ∧
  (∀ id r m', Connector.has b id m = Some (r, m') →
     heap m' = heap m ∧ cache m' = (LRU.get (cache m) id).2) ∧
  (∀ rs r m', Connector.set_resume b rs m = Some (r, m') → m' = m) ∧
  (∀ rs r m', Connector.has_resume b rs m = Some (r, m') → m' = m).
Proof.
  split_and!; intros x ? ? Hrun;
    try destruct (LRU.get (cache m) x) as [cv c1] eqn:Hget;
    destruct b; run_M; try destruct x; rewrite ?Hget in Hrun; simpl in Hrun;
    repeat (case_match; simplify_eq/=); by simplify_eq/=.
Qed.

Lemma cached_stateID_frame m m' id :
  LRU.peek (cache m') id = LRU.peek (cache m) id →
  (∀ l, is_Some (heap m !! l) → field (heap m') l "_stateID" = field (heap m) l "_stateID") →
  ∀ k, cached_stateID m id = Some k → cached_stateID m' id = Some k.
Proof.
  intros Hp Hh k (l & Hl & Hf)%cached_stateID_inv.
  unfold cached_stateID. rewrite Hp, Hl, Hh, Hf; [done|].
  unfold field in Hf. destruct (heap m !! l); [eauto|done].
Qed.

(** [C1] Monotonicity of the cache.  Whatever interleaving of method calls
    and resumptions has run, and whatever the store answers, no atomic piece
    of a cache-backed connector replaces a cache entry whose stateID is a
    integer by a state whose stateID is a smaller integer. *)
Theorem cache_never_regresses (b : connector) (evs : list event) (m0 m : mem)
    (ev : event) (m' : mem) (id : string) (k k' : Z) :
  run b evs m0 = Some m →
  exec b ev m = Some m' →
  cached_stateID m id = Some k →
  cached_stateID m' id = Some k' →
  (k ≤ k')%Z.
Proof.
  intros _ Hexec Hk Hk'.
  assert (Hsame : LRU.peek (cache m') id = LRU.peek (cache m) id →
    (∀ l, is_Some (heap m !! l) → field (heap m') l "_stateID" = field (heap m) l "_stateID") →
    (k ≤ k')%Z).
  { intros Hp Hh. pose proof (cached_stateID_frame m m' id Hp Hh k Hk). 
    assert (k = k') by congruence. lia. }
  assert (Hwrite : ∀ id0 v,
    cache m' = LRU.set (LRU.get (cache m) id0).2 id0 v →
    (∀ l, field (heap m') l "_stateID" = field (heap m) l "_stateID") →
    (∀ l k, LRU.peek (cache m) id0 = Some (VRef l) →
            field (heap m) l "_stateID" = VNum k →
            ∀ l' k', v = VRef l' → field (heap m) l' "_stateID" = VNum k' → (k ≤ k')%Z) →
    (k ≤ k')%Z).
  { intros id0 v Hc Hh Hg.
    destruct (decide (id0 = id)) as [->|Hne].
    - apply cached_stateID_inv in Hk as (l & Hl & Hf).
      apply cached_stateID_inv in Hk' as (l' & Hl' & Hf').
      rewrite Hc, peek_set_eq in Hl'. rewrite Hh in Hf'.
      injection Hl' as ->. eapply Hg; eauto.
    - apply Hsame; [|by intros].
      destruct (peek_set_ne (LRU.get (cache m) id0).2 id0 v id Hne) as [Hp|Hp].
      + by rewrite Hc, Hp, peek_get.
      + apply cached_stateID_inv in Hk' as (l' & Hl' & _). congruence. }
  destruct (read_only_cases b m) as (Hget & Hhas & Hsr & Hhr).
  destruct ev as [id0 st|r|id0|id0 r|id0|r|o]; simpl in Hexec;
    try (apply fmap_Some in Hexec as ([res m1] & Hrun & ->); simpl in * ).
  - apply set_cases in Hrun as [[Hc Hh]|(Hc & Hh & Hg)].
    + apply Hsame; [by rewrite Hc, peek_get|by rewrite Hh].
    + apply (Hwrite id0 st Hc).
      * done.
      * intros l1 k1 Hp Hf l2 k2 Hs Hf2. specialize (Hg l1 k1 Hp Hf l2 k2 Hs Hf2). lia.
  - apply Hsr in Hrun as ->. by apply Hsame.
  - apply Hget in Hrun as [Hh Hc]. apply Hsame; [by rewrite Hc, peek_get|by rewrite Hh].
  - apply get_resume_cases in Hrun as [Hh [Hc|[Hc|(doc & Hc & Hg)]]].
    + apply Hsame; [by rewrite Hc|by rewrite Hh].
    + apply Hsame; [by rewrite Hc, peek_get|by rewrite Hh].
    + apply (Hwrite id0 doc Hc); [by rewrite Hh|done].
  - apply Hhas in Hrun as [Hh Hc]. apply Hsame; [by rewrite Hc, peek_get|by rewrite Hh].
  - apply Hhr in Hrun as ->. by apply Hsame.
  - simplify_eq/=. apply Hsame; [done|]. intros l Hl. unfold field.
    rewrite lookup_insert_ne; [done|]. intros <-.
    apply (is_fresh (dom (heap m))). by apply elem_of_dom.
Qed.

(** ** The staleness guard of [set] *)

Lemma get_pair c k :
  LRU.get c k = (default VUndefined (LRU.peek c k), (LRU.get c k).2).
Proof. rewrite <- get_value. by destruct (LRU.get c k). Qed.

Lemma set_stale b id l m k n :
  cached_stateID m id = Some k →
  field (heap m) l "_stateID" = VNum n →
  (n ≤ k)%Z →
  Connector.set b id (VRef l) m
  = Some (Ok (Return VUndefined), with_cache (touched m id) m).
Proof.
  intros (l0 & Hp & Hf)%cached_stateID_inv Hn Hle. unfold touched.
  assert (Hge : JS.ge (VNum k) (VNum n) = Some true).
  { unfold JS.ge. simpl. f_equal. by apply Z.leb_le. }
  destruct b; run_M; rewrite get_pair, Hp; simpl; by rewrite Hf, Hn, Hge.
Qed.

Lemma set_passes b id l m :
  passes_guard m id (VRef l) →
  connected b m →
  Connector.set b id (VRef l) m
  = Some (Ok (Await (write_request b id (VRef l)) (Connector.set_resume b)),
          after_set b id l m).
Proof.
  unfold passes_guard, connected, after_set, document, touched. intros Hg Hc.
  destruct b; run_M; rewrite get_pair; unfold with_heap, with_cache in *; simpl;
    destruct Hc as [? | Hdb]; simplify_eq; rewrite ?Hdb;
    destruct (default VUndefined (LRU.peek (cache m) id));
    simpl in *; repeat (case_match; simplify_eq/=);
    by rewrite ?alter_insert_delete_id.
Qed.

(** ** Awaited [set] *)

Lemma heap_after_set b id l o m :
  heap m !! l = Some o →
  heap (after_set b id l m) !! l = Some (document b m o).
Proof.
  intros Ho. unfold after_set. simpl heap. by rewrite lookup_alter_eq, Ho.
Qed.


Lemma snapshot_after_set b id l o m :
  heap m !! l = Some o →
  Store.snapshot (heap (after_set b id l m)) l = document b m o.
Proof.
  intros Ho. unfold Store.snapshot. by rewrite (heap_after_set b id l o m Ho).
Qed.

Lemma settle_await {A} q k m s :
  @settle A (Await q k) m s
  = match Store.perform q (heap m) s with
    | Some (r, h', s') =>
        match k r (with_heap h' m) with
        | Some (Ok a', m') => settle a' m' s'
        | Some (Err e, m') => Some (Err e, (m', s'))
        | None => None
        end
    | None => None
    end.
Proof. done. Qed.

Lemma perform_write b id l h s :
  ∃ v, Store.perform (write_request b id (VRef l)) h s
       = Some (Resolved v, h, persisted b id (Store.snapshot h l) s).
Proof. destruct b; simpl; eauto. Qed.

Lemma call_set_stale b id l m s k n :
  cached_stateID m id = Some k →
  field (heap m) l "_stateID" = VNum n →
  (n ≤ k)%Z →
  call (Connector.set b id (VRef l)) (m, s)
  = Some (Ok VUndefined, (with_cache (touched m id) m, s)).
Proof.
  intros Hk Hn Hle. unfold call. simpl.
  by rewrite (set_stale b id l m k n).
Qed.

Lemma call_set_passes b id l m s :
  passes_guard m id (VRef l) →
  connected b m →
  call (Connector.set b id (VRef l)) (m, s)
  = Some (Ok VUndefined,
          (after_set b id l m,
           persisted b id (Store.snapshot (heap (after_set b id l m)) l) s)).
Proof.
  intros Hg Hc. unfold call. simpl fst. simpl snd.
  rewrite (set_passes b id l m Hg Hc), settle_await.
  destruct (perform_write b id l (heap (after_set b id l m)) s) as [v ->].
  assert (Hm : with_heap (heap (after_set b id l m)) (after_set b id l m)
               = after_set b id l m) by done.
  rewrite Hm. by destruct b.
Qed.

Lemma call_set_passes_object b id l o m s :
  passes_guard m id (VRef l) →
  connected b m →
  heap m !! l = Some o →
  call (Connector.set b id (VRef l)) (m, s)
  = Some (Ok VUndefined, (after_set b id l m, persisted b id (document b m o) s)).
Proof.
  intros Hg Hc Ho. rewrite (call_set_passes b id l m s Hg Hc).
  by rewrite (snapshot_after_set b id l o m Ho).
Qed.

Lemma peek_after_set b id l m :
  LRU.peek (cache (after_set b id l m)) id = Some (VRef l).
Proof. apply peek_set_eq. Qed.

(** ** Reads served by the cache *)

Lemma get_hit b id v m :
  LRU.peek (cache m) id = Some v →
  defined v = true →
  Connector.get b id m = Some (Ok (Return v), with_cache (touched m id) m).
Proof.
  intros Hp Hd. unfold touched.
  destruct b; run_M; rewrite get_pair, Hp; simpl; by rewrite Hd.
Qed.

Lemma has_hit b id v m :
  LRU.peek (cache m) id = Some v →
  defined v = true →
  Connector.has b id m = Some (Ok (Return (VBool true)), with_cache (touched m id) m).
Proof.
  intros Hp Hd. unfold touched.
  destruct b; run_M; rewrite get_pair, Hp; simpl; by rewrite Hd.
Qed.

(** ** Claims about [set] *)

(** [C2], amended.  A [set(id, state)] that finds in the cache an entry for
    [id] whose stateID is at least that of [state] returns without changing
    what the cache holds for any id, any object, or the durable store; its
    cache lookup only marks the entry of [id] as most recently used.  A
    [get(id)] that follows is then served the state the cache held, so that
    after [set(id, {stateID: a})] has taken effect and
    [set(id, {stateID: b})] with [b < a] has been discarded, [get(id)]
    returns the state with stateID [a]. *)
Theorem stale_set_is_discarded (b : connector) (id : string) (l : loc)
    (m : mem) (s : Store.t) (k n : Z) :
  cached_stateID m id = Some k →
  field (heap m) l "_stateID" = VNum n →
  (n ≤ k)%Z →
  ∃ l0 m3,
    LRU.peek (cache m) id = Some (VRef l0) ∧
    field (heap m) l0 "_stateID" = VNum k ∧
    call (Connector.set b id (VRef l)) (m, s)
      = Some (Ok VUndefined, (with_cache (touched m id) m, s)) ∧
    (∀ id', LRU.peek (touched m id) id' = LRU.peek (cache m) id') ∧
    call (Connector.get b id) (with_cache (touched m id) m, s)
      = Some (Ok (VRef l0), (m3, s)) ∧
    heap m3 = heap m.
Proof.
  intros Hk Hn Hle.
  destruct (cached_stateID_inv m id k Hk) as (l0 & Hp & Hf).
  exists l0. eexists. split_and!; [done|done| |intros; apply peek_get| |].
  - by apply (call_set_stale b id l m s k n).
  - unfold call. simpl.
    rewrite (get_hit b id (VRef l0)); [done| |done].
    simpl. unfold touched. by rewrite peek_get.
  - done.
Qed.

(** The scenario of the race-condition tests: two out-of-order writes,
    then a read. *)
Lemma out_of_order_sets (b : connector) (id : string) (la lb : loc)
    (m : mem) (s : Store.t) (sa sb : Z) :
  connected b m →
  passes_guard m id (VRef la) →
  field (heap m) la "_stateID" = VNum sa →
  field (heap m) lb "_stateID" = VNum sb →
  (sb < sa)%Z →
  ∃ w1 w2 w3,
    call (Connector.set b id (VRef la)) (m, s) = Some (Ok VUndefined, w1) ∧
    call (Connector.set b id (VRef lb)) w1 = Some (Ok VUndefined, w2) ∧
    call (Connector.get b id) w2 = Some (Ok (VRef la), w3) ∧
    field (heap w3.1) la "_stateID" = VNum sa.
Proof.
  intros Hc Hg Ha Hb Hlt.
  set (m1 := after_set b id la m).
  assert (Hk : cached_stateID m1 id = Some sa).
  { unfold cached_stateID, m1. rewrite peek_after_set. simpl.
    by rewrite field_document, Ha. }
  assert (Hb1 : field (heap m1) lb "_stateID" = VNum sb).
  { unfold m1. simpl. by rewrite field_document. }
  eexists _, _, _. split_and!.
  - by apply call_set_passes.
  - apply (call_set_stale b id lb m1 _ sa sb); [done|done|lia].
  - unfold call. simpl. rewrite (get_hit b id (VRef la)); [done| |done].
    simpl. unfold touched, m1. by rewrite peek_get, peek_after_set.
  - simpl. by rewrite field_document.
Qed.


(** ** Reads that reach the store *)

Lemma touched_absent m id : LRU.peek (cache m) id = None → touched m id = cache m.
Proof. unfold touched, LRU.get, LRU.peek. by intros ->. Qed.

Lemma get_miss b id m :
  b ≠ OfSQL →
  default VUndefined (LRU.peek (cache m) id) = VUndefined →
  connected b m →
  Connector.get b id m
  = Some (Ok (Await (read_request b id) (Connector.get_resume b id)),
          with_cache (touched m id) m).
Proof.
  unfold connected, touched. intros Hb Hp Hc.
  destruct b; [done| |]; run_M; rewrite get_pair, Hp; simpl;
    destruct Hc as [? | Hdb]; simplify_eq; by rewrite ?Hdb.
Qed.

Lemma has_miss b id m :
  b ≠ OfSQL →
  default VUndefined (LRU.peek (cache m) id) = VUndefined →
  connected b m →
  Connector.has b id m
  = Some (Ok (Await (exists_request b id) (Connector.has_resume b)),
          with_cache (touched m id) m).
Proof.
  unfold connected, touched. intros Hb Hp Hc.
  destruct b; [done| |]; run_M; rewrite get_pair, Hp; simpl;
    destruct Hc as [? | Hdb]; simplify_eq; by rewrite ?Hdb.
Qed.

(** In the SQL connector a [get] or a [has] that misses the cache throws at
    [this.db.findOne], having done nothing but the cache lookup. *)
Lemma sql_miss id m :
  default VUndefined (LRU.peek (cache m) id) = VUndefined →
  SQL.get id m = Some (Err TypeError, with_cache (touched m id) m) ∧
  SQL.has id m = Some (Err TypeError, with_cache (touched m id) m).
Proof.
  unfold touched. intros Hp. split; run_M; by rewrite get_pair, Hp.
Qed.

Section KeyedFacts.
Context {K V : Type} `{EqDecision K}.
Implicit Types (k : K) (v : V) (rows : list (K * V)).

Lemma find_filter k rows :
  Store.find k rows = head (filter (λ row, row.1 = k) rows).*2.
Proof.
  induction rows as [|[k0 v0] rows IH]; simpl; [done|].
  rewrite filter_cons. simpl.
  destruct (decide (k = k0)) as [->|Hne].
  - by rewrite decide_True.
  - rewrite decide_False by congruence. done.
Qed.

Lemma filter_upsert_ne k k' v rows :
  k ≠ k' →
  filter (λ row, row.1 = k') (Store.upsert k v rows) = filter (λ row, row.1 = k') rows.
Proof.
  intros Hne. induction rows as [|[k0 v0] rows IH]; simpl.
  - rewrite filter_cons. simpl. by rewrite decide_False.
  - destruct (decide (k = k0)) as [->|Hk0].
    + rewrite !filter_cons. simpl. by rewrite !decide_False.
    + rewrite !filter_cons. simpl. by rewrite IH.
Qed.

Lemma filter_upsert_eq k v rows :
  (length (filter (λ row, row.1 = k) rows) ≤ 1)%nat →
  filter (λ row, row.1 = k) (Store.upsert k v rows) = [(k, v)].
Proof.
  induction rows as [|[k0 v0] rows IH]; simpl; intros Hlen.
  - rewrite filter_cons. simpl. by rewrite decide_True.
  - rewrite filter_cons in Hlen. simpl in Hlen.
    destruct (decide (k = k0)) as [->|Hk0].
    + rewrite decide_True in Hlen by done. simpl in Hlen.
      rewrite filter_cons. simpl. rewrite decide_True by done.
      f_equal. apply nil_length_inv. lia.
    + rewrite decide_False in Hlen by congruence.
      rewrite filter_cons. simpl. rewrite decide_False by congruence. by apply IH.
Qed.

Lemma upsert_same k v rows :
  (filter (λ row, row.1 = k) rows).*2 = [v] → Store.upsert k v rows = rows.
Proof.
  induction rows as [|[k0 v0] rows IH]; simpl; [done|].
  rewrite filter_cons. simpl.
  destruct (decide (k = k0)) as [->|Hk0].
  - rewrite decide_True by done. simpl. by intros [= ->].
  - rewrite decide_False by congruence. intros Hf. by rewrite IH.
Qed.

End KeyedFacts.

Lemma perform_exists b id h s :
  ∃ r h',
    Store.perform (exists_request b id) h s = Some (r, h', s) ∧
    ∀ m, Connector.has_resume b r m
         = Some (Ok (Return (VBool (bool_decide (held b s id ≠ [])))), m).
Proof.
  destruct b as [| |e d]; simpl.
  - rewrite find_filter.
    destruct ((filter (λ row, row.1 = id) (Store.table s)).*2) as [|ctx rest]; simpl;
      eexists _, _; split; done.
  - unfold Store.deliver.
    destruct (Store.collection s id) as [|doc rest]; simpl;
      eexists _, _; split; done.
  - assert (Hreq : ∀ c, Store.perform (Firebase.read_of e c) h s
                        = Store.perform (ColGet c) h s) by by destruct e.
    rewrite Hreq. simpl. rewrite find_filter.
    destruct ((filter _ (Store.documents s)).*2) as [|doc rest]; simpl;
      eexists _, _; split; done.
Qed.

(** ** Claims about [has] *)


(** ** The re-check of [get] *)

Ltac finish_recheck Hge write :=
  first [ rewrite Hge; by destruct write | cbv in Hge; by simplify_eq ].

Lemma get_resume_spec b id r m doc found write :
  b ≠ OfSQL →
  fetched b r = Some (doc, found) →
  (∀ v, LRU.peek (cache m) id = Some v → v = VUndefined ∨ ∃ l, v = VRef l) →
  (found = true → ∃ l, doc = VRef l) →
  JS.ge (spec_newStateID (heap m) doc found) (spec_oldStateID m id) = Some write →
  Connector.get_resume b id r m
  = Some (Ok (Return doc),
          with_cache (if write then LRU.set (touched m id) id doc else touched m id) m).
Proof.
  intros Hb Hr Hentry Hdoc Hge. unfold touched, spec_oldStateID in *.
  destruct b as [| |e d]; [done| |]; destruct r; simplify_eq/=;
    run_M; simpl; rewrite get_pair; simpl.
  - destruct (0 <? length docs)%nat eqn:Hlen.
    + destruct Hdoc as [l Hl]; [done|]. rewrite Hl in *. simpl in *.
      destruct (LRU.peek (cache m) id) as [v|] eqn:Hp; simpl.
      * destruct (Hentry v eq_refl) as [->|[l0 ->]]; simpl; finish_recheck Hge write.
      * finish_recheck Hge write.
    + assert (Hnew : spec_newStateID (heap m) (Mongo.first docs) false = VNum (-1))
        by by destruct (Mongo.first docs).
      rewrite Hnew in Hge.
      destruct (LRU.peek (cache m) id) as [v|] eqn:Hp; simpl.
      * destruct (Hentry v eq_refl) as [->|[l0 ->]]; simpl; finish_recheck Hge write.
      * finish_recheck Hge write.
  - destruct (truthy doc) eqn:Htr.
    + destruct Hdoc as [l Hl]; [done|]. rewrite Hl in *. simpl in *.
      destruct (LRU.peek (cache m) id) as [v|] eqn:Hp; simpl.
      * destruct (Hentry v eq_refl) as [->|[l0 ->]]; simpl; finish_recheck Hge write.
      * finish_recheck Hge write.
    + assert (Hnew : spec_newStateID (heap m) doc false = VNum (-1))
        by by destruct doc.
      rewrite Hnew in Hge.
      destruct (LRU.peek (cache m) id) as [v|] eqn:Hp; simpl.
      * destruct (Hentry v eq_refl) as [->|[l0 ->]]; simpl; finish_recheck Hge write.
      * finish_recheck Hge write.
Qed.

(** [C3], amended.  In the Mongo and Firebase connectors, when the store
    read of a cache-miss [get(id)] has completed, [oldStateID] is the stateID
    of the entry the cache now holds for [id], or 0 without one;
    [newStateID] is the stateID of the store document, or -1 when none was
    found; the cache entry of [id] is written with the store's result exactly
    when [newStateID >= oldStateID], and [get] returns the store's result.
    In particular a missing store document does not overwrite a cache entry
    whose stateID is a non-negative integer. *)
Theorem get_recheck_formula (b : connector) (id : string) (r : response)
    (m : mem) (doc : value) (found write : bool) :
  b ≠ OfSQL →
  fetched b r = Some (doc, found) →
  (∀ v, LRU.peek (cache m) id = Some v → v = VUndefined ∨ ∃ l, v = VRef l) →
  (found = true → ∃ l, doc = VRef l) →
  JS.ge (spec_newStateID (heap m) doc found) (spec_oldStateID m id) = Some write →
  ∃ m',
    Connector.get_resume b id r m = Some (Ok (Return doc), m') ∧
    heap m' = heap m ∧
    cache m' = (if write then LRU.set (touched m id) id doc else touched m id) ∧
    (found = false → ∀ k, cached_stateID m id = Some k → (0 ≤ k)%Z →
       write = false ∧ LRU.peek (cache m') id = LRU.peek (cache m) id).
Proof.
  intros Hb Hr Hentry Hdoc Hge. eexists. split_and!.
  - by apply (get_resume_spec b id r m doc found write).
  - done.
  - done.
  - intros -> k (l & Hp & Hf)%cached_stateID_inv Hk.
    assert (write = false) as ->.
    { unfold spec_oldStateID in Hge. rewrite Hp, Hf in Hge.
      assert (Hnew : spec_newStateID (heap m) doc false = VNum (-1)) by by destruct doc.
      rewrite Hnew in Hge. unfold JS.ge in Hge. simpl in Hge.
      injection Hge as <-. apply Z.leb_gt. lia. }
    split; [done|]. simpl. apply peek_get.
Qed.

(** ** Reading back what [set] persisted *)

Lemma find_upsert {K V} `{EqDecision K} (k : K) (v : V) rows :
  Store.find k (Store.upsert k v rows) = Some v.
Proof.
  induction rows as [|[k0 v0] rows IH]; simpl.
  - by rewrite decide_True.
  - destruct (decide (k = k0)) as [->|Hne]; simpl.
    + by rewrite decide_True.
    + by rewrite decide_False.
Qed.

Lemma perform_read_back b id d h s :
  b ≠ OfSQL →
  ∃ r doc,
    Store.perform (read_request b id) h (persisted b id d s)
      = Some (r, <[fresh (dom h) := doc]> h, persisted b id d s) ∧
    fetched b r = Some (VRef (fresh (dom h)), true) ∧
    (∀ p, p ≠ "_id" → doc !! p = d !! p).
Proof.
  intros Hb. destruct b as [| |e dn]; [done| |].
  - exists (Docs [VRef (fresh (dom h))]), d.
    split_and!; [|done|done].
    simpl. unfold Store.collection at 1. simpl. rewrite lookup_insert_eq. simpl.
    by rewrite last_snoc.
  - exists (Snapshot (VRef (fresh (dom h))) true), d.
    split_and!; [|done|done].
    assert (Hreq : ∀ c s0, Store.perform (Firebase.read_of e c) h s0
                           = Store.perform (ColGet c) h s0) by by destruct e.
    simpl. rewrite Hreq. simpl. by rewrite find_upsert.
Qed.

Lemma call_get_cold b id d n m s :
  b ≠ OfSQL →
  connected b m →
  LRU.peek (cache m) id = None →
  d !! "_stateID" = Some (VNum n) →
  (0 ≤ n)%Z →
  ∃ doc,
    call (Connector.get b id) (m, persisted b id d s)
      = Some (Ok (VRef (fresh (dom (heap m)))),
              (Mem (<[fresh (dom (heap m)) := doc]> (heap m))
                   (LRU.set (cache m) id (VRef (fresh (dom (heap m)))))
                   (db m) (console m) (detached m) (oid m),
               persisted b id d s)) ∧
    (∀ p, p ≠ "_id" → doc !! p = d !! p).
Proof.
  intros Hb Hc Hp Hn Hle.
  destruct (perform_read_back b id d (heap m) s Hb) as (r & doc & Hperf & Hr & Hdoc).
  exists doc. split; [|done].
  assert (Hmiss : default VUndefined (LRU.peek (cache m) id) = VUndefined) by by rewrite Hp.
  unfold call. simpl fst. simpl snd. rewrite (get_miss b id m Hb Hmiss Hc).
  rewrite (touched_absent m id Hp). simpl. rewrite Hperf.
  rewrite (get_resume_spec b id r _ (VRef (fresh (dom (heap m)))) true true);
    [| done | done | | eauto | ].
  - unfold touched, LRU.get. simpl. unfold LRU.peek in Hp. by rewrite Hp.
  - intros v Hv. simpl in Hv. congruence.
  - unfold spec_oldStateID, spec_newStateID, field. simpl.
    rewrite Hp, lookup_insert_eq. simpl. rewrite Hdoc, Hn by done.
    unfold JS.ge. simpl. f_equal. by apply Z.leb_le.
Qed.

(** [C8], amended.  In the Mongo and Firebase connectors, once
    [set(id, state)] has persisted a state whose stateID is a non-negative
    integer, a [get(id)] on an emptied cache returns a document with the
    properties of that state (and, for Mongo, the [_id] its driver gave it), and
    caches it: a [get(id)] that follows returns the same document from the
    cache, without a request to the store. *)
Theorem get_repopulates_cold_cache (b : connector) (id : string) (l : loc)
    (o : obj) (n : Z) (m : mem) (s : Store.t) :
  b ≠ OfSQL →
  connected b m →
  passes_guard m id (VRef l) →
  heap m !! l = Some o →
  o !! "_stateID" = Some (VNum n) →
  (0 ≤ n)%Z →
  ∃ w1 l' m2 s2 m3,
    call (Connector.set b id (VRef l)) (m, s) = Some (Ok VUndefined, w1) ∧
    call (Connector.get b id) (cache_reset w1) = Some (Ok (VRef l'), (m2, s2)) ∧
    (∀ p, p ≠ "_id" → field (heap m2) l' p = default VUndefined (o !! p)) ∧
    LRU.peek (cache m2) id = Some (VRef l') ∧
    Connector.get b id m2 = Some (Ok (Return (VRef l')), m3) ∧
    heap m3 = heap m2.
Proof.
  intros Hb Hc Hg Ho Hn Hle.
  destruct (call_get_cold b id (document b m o) n
              (cache_reset (after_set b id l m, s)).1 s) as (doc & Hcall & Hdoc);
    [done| |done| |done|].
  { destruct Hc as [?|?]; [by left|by right]. }
  { by rewrite document_ne. }
  eexists _, _, _, _, _. split_and!.
  - by apply call_set_passes_object.
  - exact Hcall.
  - intros p Hp. unfold field. simpl. rewrite lookup_insert_eq. simpl.
    rewrite Hdoc by done. by rewrite document_ne.
  - simpl. apply peek_set_eq.
  - apply get_hit; [|done]. simpl. apply peek_set_eq.
  - done.
Qed.

(** ** What [set] leaves in the store *)

Lemma call_set_store b id state m s r m' s' :
  call (Connector.set b id state) (m, s) = Some (r, (m', s')) →
  s' = s ∨ ∃ d, s' = persisted b id d s.
Proof.
  unfold call. simpl fst. simpl snd.
  destruct (LRU.get (cache m) id) as [cv c1] eqn:Hget.
  destruct b; run_M; simpl; rewrite Hget; simpl;
    intros H; repeat (case_match; simplify_eq/=); eauto.
Qed.

Lemma col_of_inj e d id id' : Firebase.col_of e d id = Firebase.col_of e d id' → id = id'.
Proof. destruct e; simpl; congruence. Qed.

Lemma held_persisted_eq b id d s :
  b ≠ OfMongo →
  (length (held b s id) ≤ 1)%nat →
  held b (persisted b id d s) id = [d].
Proof.
  intros Hb Hlen. destruct b as [| |e dn]; [|done|]; simpl in *;
    rewrite length_fmap in Hlen; by rewrite filter_upsert_eq.
Qed.

Lemma held_persisted_ne b id id' d s :
  b ≠ OfMongo →
  id' ≠ id →
  held b (persisted b id d s) id' = held b s id'.
Proof.
  intros Hb Hne. destruct b as [| |e dn]; [|done|]; simpl.
  - by rewrite filter_upsert_ne.
  - rewrite filter_upsert_ne; [done|]. intros Heq. by apply col_of_inj in Heq.
Qed.

Lemma persisted_same b id d s :
  b ≠ OfMongo →
  held b s id = [d] →
  persisted b id d s = s.
Proof.
  intros Hb Hd. destruct b as [| |e dn]; [|done|]; destruct s; simpl in *;
    unfold Store.with_table, Store.with_documents; simpl; f_equal;
    by apply upsert_same.
Qed.

Lemma held_persisted_le b id d s :
  b ≠ OfMongo →
  (∀ id', (length (held b s id') ≤ 1)%nat) →
  ∀ id', (length (held b (persisted b id d s) id') ≤ 1)%nat.
Proof.
  intros Hb Hs id'. destruct (decide (id' = id)) as [->|Hne].
  - by rewrite held_persisted_eq.
  - by rewrite held_persisted_ne.
Qed.

Lemma set_all_at_most_one b calls :
  b ≠ OfMongo →
  ∀ w w',
    (∀ id, (length (held b w.2 id) ≤ 1)%nat) →
    set_all b calls w = Some w' →
    ∀ id, (length (held b w'.2 id) ≤ 1)%nat.
Proof.
  intros Hb. induction calls as [|[id state] calls IH]; intros [m s] w' Hs Hrun; simpl in *.
  - by simplify_eq.
  - destruct (call (Connector.set b id state) (m, s)) as [[r [m1 s1]]|] eqn:Hcall; [|done].
    apply (IH (m1, s1) w'); [|done]. simpl.
    apply call_set_store in Hcall as [->|[d ->]]; [done|].
    by apply held_persisted_le.
Qed.

(** [C5], amended.  In the SQL and Firebase connectors a [set(id, state)]
    that passes the guard persists the state with a create-or-replace keyed
    by the game id: the store then holds exactly that document for [id] and
    what it held for the other ids; persisting the same document again, as a
    second [set] of the same state on an emptied cache does, leaves the store
    as it is; and after any sequence of [set] calls the store still holds at
    most one document per game id. *)
Theorem set_persists_by_upsert (b : connector) (id : string) (l : loc)
    (o : obj) (m : mem) (s : Store.t) :
  b ≠ OfMongo →
  connected b m →
  passes_guard m id (VRef l) →
  heap m !! l = Some o →
  (∀ id', (length (held b s id') ≤ 1)%nat) →
  ∃ m' s',
    call (Connector.set b id (VRef l)) (m, s) = Some (Ok VUndefined, (m', s')) ∧
    s' = persisted b id (delete "_id" o) s ∧
    held b s' id = [delete "_id" o] ∧
    (∀ id', id' ≠ id → held b s' id' = held b s id') ∧
    persisted b id (delete "_id" o) s' = s' ∧
    (∃ m'', call (Connector.set b id (VRef l)) (cache_reset (m', s'))
            = Some (Ok VUndefined, (m'', s'))) ∧
    (∀ calls w', set_all b calls (m', s') = Some w' →
       ∀ id', (length (held b w'.2 id') ≤ 1)%nat).
Proof.
  intros Hb Hc Hg Ho Hs.
  assert (Hsame : persisted b id (delete "_id" o) (persisted b id (delete "_id" o) s)
                  = persisted b id (delete "_id" o) s).
  { apply persisted_same; [done|]. by apply held_persisted_eq. }
  assert (Hdoc : ∀ m0 o0, document b m0 o0 = delete "_id" o0) by by destruct b.
  eexists _, _. split_and!.
  - rewrite (call_set_passes_object b id l o m s Hg Hc Ho). by rewrite Hdoc.
  - done.
  - by apply held_persisted_eq.
  - intros id' Hne. by apply held_persisted_ne.
  - done.
  - eexists. unfold cache_reset. simpl fst. simpl snd.
    rewrite (call_set_passes_object b id l (delete "_id" o)).
    + by rewrite Hdoc, delete_delete_eq, Hsame.
    + done.
    + destruct Hc as [?|?]; [by left|by right].
    + simpl heap. rewrite lookup_alter_eq, Ho. simpl. by rewrite Hdoc.
  - intros calls w' Hrun. eapply (set_all_at_most_one b calls Hb); [|done].
    simpl. by apply held_persisted_le.
Qed.

(** ** Failures of the store *)

(** [C6], amended.  [SQL.connect] inspects the value [authenticate()]
    resolves to: a truthy one is passed to [console.error] and [connect]
    returns normally.  A rejected [authenticate()] or [client.connect()]
    promise, or a throwing Firebase driver call, propagates out of [connect]
    in every connector, and the Mongo and Firebase connectors log nothing.
    A rejected store promise during [set], [get] or [has] propagates to the
    caller. *)
Theorem connect_logs_only_resolved_errors (b : connector) (id : string)
    (m : mem) (c reason : value) (e : exn) :
  SQL.connect m = Some (Ok (Await Authenticate SQL.connect_resume), m) ∧
  SQL.connect_resume (Resolved c) m
    = Some (Ok (Return VUndefined),
            if truthy c
            then Mem (heap m) (cache m) (db m)
                     (app (console m) [[VStr "Connection error"; c]]) (detached m) (oid m)
            else Mem (heap m) (cache m) (db m) (console m) (app (detached m) [Sync])
                     (oid m)) ∧
  SQL.connect_resume (Rejected reason) m = Some (Err (Rejection reason), m) ∧
  Mongo.connect m = Some (Ok (Await ClientConnect Mongo.connect_resume), m) ∧
  Mongo.connect_resume (Rejected reason) m = Some (Err (Rejection reason), m) ∧
  Firebase.connect (Err e) m = Some (Err e, m) ∧
  Connector.set_resume b (Rejected reason) m = Some (Err (Rejection reason), m) ∧
  Connector.get_resume b id (Rejected reason) m = Some (Err (Rejection reason), m) ∧
  Connector.has_resume b (Rejected reason) m = Some (Err (Rejection reason), m).
Proof.
  split_and!; try done.
  - unfold SQL.connect_resume, bind, awaited, ret, console_error, detach.
    by destruct (truthy c).
  - by destruct b.
  - by destruct b.
  - by destruct b.
Qed.

(** ** Reading a game that was never set *)

Lemma mongo_get_never_set id m s :
  db m = true →
  LRU.peek (cache m) id = None →
  Store.collection s id = [] →
  call (Mongo.get id) (m, s) = Some (Ok VUndefined, (m, s)).
Proof.
  intros Hdb Hp Hcol. unfold call. simpl fst. simpl snd.
  assert (Hget : LRU.get (cache m) id = (VUndefined, cache m)).
  { unfold LRU.get. unfold LRU.peek in Hp. by rewrite Hp. }
  unfold Mongo.get, Mongo.get_resume. run_M. simpl. rewrite Hget. simpl.
  rewrite Hdb. simpl. rewrite Hcol. simpl. rewrite Hget. simpl.
  by destruct m.
Qed.

Lemma sql_get_never_set id m s :
  LRU.peek (cache m) id = None →
  call (SQL.get id) (m, s) = Some (Err TypeError, (m, s)).
Proof.
  intros Hp. unfold call. simpl fst. simpl snd.
  assert (Hmiss : default VUndefined (LRU.peek (cache m) id) = VUndefined) by by rewrite Hp.
  destruct (sql_miss id m Hmiss) as [-> _].
  rewrite (touched_absent m id Hp). by destruct m.
Qed.

(** [C4] The claim fails on the SQL connector: reading a game id that was
    never set, on a newly constructed connector over an empty table, does not
    return [undefined]; the lookup [this.db.findOne] throws a [TypeError],
    and so would [return doc.ctx] on the [null] of a lookup that found no
    row.  The cache and the store are left as they were. *)
Theorem sql_get_never_set_throws :
  call (SQL.get "gameID") (fresh_world 1000)
  = Some (Err TypeError, fresh_world 1000).
Proof. by apply sql_get_never_set. Qed.

(** ** The InMemory connector *)

(** [C10] The InMemory backend has no staleness guard: the second of two
    writes to the same id is what a later read returns, whatever the two
    states are, and so also when the second carries the smaller stateID. *)
Theorem InMemory_set_overwrites (g : InMemory.games) (id : string) (s1 s2 : value) :
  InMemory.get id (InMemory.set id s2 (InMemory.set id s1 g)) = s2.
Proof.
  unfold InMemory.get, InMemory.set.
  by rewrite lookup_insert_eq.
Qed.

(** The instance of the race-condition tests: stateID 1, then stateID 0. *)
Example InMemory_out_of_order :
  InMemory.get "gameID"
    (InMemory.set "gameID" (VRef 2) (InMemory.set "gameID" (VRef 1) InMemory.create))
  = VRef 2.
Proof. reflexivity. Qed.

(** ** Concrete runs *)

(** *** Instances *)

Lemma cache_never_regresses_witness :
  cached_stateID (after_set OfMongo "gameID" 2 (Scenario.memory 1000 [])) "gameID"
    = Some 0%Z ∧
  cached_stateID
    (after_set OfMongo "gameID" 1 (after_set OfMongo "gameID" 2 (Scenario.memory 1000 [])))
    "gameID"
    = Some 1%Z ∧
  (0 ≤ 1)%Z.
Proof.
  split_and!; [(vm_compute; reflexivity) | (vm_compute; reflexivity) |].
  apply (cache_never_regresses OfMongo [CallSet "gameID" (VRef 2)]
           (Scenario.memory 1000 [])
           (after_set OfMongo "gameID" 2 (Scenario.memory 1000 []))
           (CallSet "gameID" (VRef 1))
           (after_set OfMongo "gameID" 1
              (after_set OfMongo "gameID" 2 (Scenario.memory 1000 [])))
           "gameID" 0 1); (vm_compute; reflexivity).
Defined.

Lemma stale_set_is_discarded_witness :
  ∃ l0 m3,
    LRU.peek (cache (Scenario.memory 1000 [("gameID", VRef 1)])) "gameID"
      = Some (VRef l0) ∧
    field Scenario.objects l0 "_stateID" = VNum 1 ∧
    call (Connector.set OfMongo "gameID" (VRef 2))
         (Scenario.memory 1000 [("gameID", VRef 1)], Store.empty)
      = Some (Ok VUndefined,
              (with_cache (touched (Scenario.memory 1000 [("gameID", VRef 1)]) "gameID")
                 (Scenario.memory 1000 [("gameID", VRef 1)]), Store.empty)) ∧
    (∀ id', LRU.peek (touched (Scenario.memory 1000 [("gameID", VRef 1)]) "gameID") id'
            = LRU.peek (cache (Scenario.memory 1000 [("gameID", VRef 1)])) id') ∧
    call (Connector.get OfMongo "gameID")
         (with_cache (touched (Scenario.memory 1000 [("gameID", VRef 1)]) "gameID")
            (Scenario.memory 1000 [("gameID", VRef 1)]), Store.empty)
      = Some (Ok (VRef l0), (m3, Store.empty)) ∧
    heap m3 = Scenario.objects.
Proof.
  apply (stale_set_is_discarded OfMongo "gameID" 2%positive
           (Scenario.memory 1000 [("gameID", VRef 1)]) Store.empty 1 0);
    [vm_compute; reflexivity | vm_compute; reflexivity | lia].
Defined.


Lemma get_recheck_formula_witness :
  ∃ m',
    Connector.get_resume OfMongo "gameID" (Docs [])
      (Scenario.memory 1000 [("gameID", VRef 1)])
      = Some (Ok (Return VUndefined), m') ∧
    heap m' = Scenario.objects ∧
    cache m' = touched (Scenario.memory 1000 [("gameID", VRef 1)]) "gameID" ∧
    (false = false →
     ∀ k, cached_stateID (Scenario.memory 1000 [("gameID", VRef 1)]) "gameID" = Some k →
          (0 ≤ k)%Z →
          false = false ∧
          LRU.peek (cache m') "gameID"
          = LRU.peek (cache (Scenario.memory 1000 [("gameID", VRef 1)])) "gameID").
Proof.
  apply (get_recheck_formula OfMongo "gameID" (Docs [])
           (Scenario.memory 1000 [("gameID", VRef 1)]) VUndefined false false).
  - discriminate.
  - reflexivity.
  - intros v Hv. vm_compute in Hv. injection Hv as <-. right. by exists 1%positive.
  - discriminate.
  - (vm_compute; reflexivity).
Defined.

Lemma set_persists_by_upsert_witness :
  ∃ m' s',
    call (Connector.set OfSQL "gameID" (VRef 1)) (Scenario.memory 1000 [], Store.empty)
      = Some (Ok VUndefined, (m', s')) ∧
    s' = persisted OfSQL "gameID" (delete "_id" Scenario.state1) Store.empty ∧
    held OfSQL s' "gameID" = [delete "_id" Scenario.state1] ∧
    (∀ id', id' ≠ "gameID" → held OfSQL s' id' = held OfSQL Store.empty id') ∧
    persisted OfSQL "gameID" (delete "_id" Scenario.state1) s' = s' ∧
    (∃ m'', call (Connector.set OfSQL "gameID" (VRef 1)) (cache_reset (m', s'))
            = Some (Ok VUndefined, (m'', s'))) ∧
    (∀ calls w', set_all OfSQL calls (m', s') = Some w' →
       ∀ id', (length (held OfSQL w'.2 id') ≤ 1)%nat).
Proof.
  apply (set_persists_by_upsert OfSQL "gameID" 1%positive Scenario.state1
           (Scenario.memory 1000 []) Store.empty).
  - discriminate.
  - by left.
  - (vm_compute; reflexivity).
  - (vm_compute; reflexivity).
  - intros id'. simpl. lia.
Defined.


Lemma get_repopulates_cold_cache_witness :
  ∃ w1 l' m2 s2 m3,
    call (Connector.set OfMongo "gameID" (VRef 1)) (Scenario.memory 1000 [], Store.empty)
      = Some (Ok VUndefined, w1) ∧
    call (Connector.get OfMongo "gameID") (cache_reset w1)
      = Some (Ok (VRef l'), (m2, s2)) ∧
    (∀ p, p ≠ "_id" → field (heap m2) l' p = default VUndefined (Scenario.state1 !! p)) ∧
    LRU.peek (cache m2) "gameID" = Some (VRef l') ∧
    Connector.get OfMongo "gameID" m2 = Some (Ok (Return (VRef l')), m3) ∧
    heap m3 = heap m2.
Proof.
  apply (get_repopulates_cold_cache OfMongo "gameID" 1%positive Scenario.state1 1
           (Scenario.memory 1000 []) Store.empty).
  - discriminate.
  - by right.
  - (vm_compute; reflexivity).
  - (vm_compute; reflexivity).
  - (vm_compute; reflexivity).
  - lia.
Defined.

(** *** Where the specification says more than the code does *)

(** Against [C2] as stated: a discarded [set] does modify the cache.  Its
    lookup moves the entry of the game to the front, so that in a cache of
    capacity 2 the next insertion evicts another game than it would have. *)
Lemma stale_set_reorders_cache :
  ∃ m1 m2 m2',
    call (Connector.set OfMongo "gameID" (VRef 2))
         (Scenario.memory 2 [("other", VRef 2); ("gameID", VRef 1)], Store.empty)
      = Some (Ok VUndefined, (m1, Store.empty)) ∧
    cache m1 ≠ cache (Scenario.memory 2 [("other", VRef 2); ("gameID", VRef 1)]) ∧
    exec OfMongo (CallSet "third" (VRef 3)) m1 = Some m2 ∧
    exec OfMongo (CallSet "third" (VRef 3))
         (Scenario.memory 2 [("other", VRef 2); ("gameID", VRef 1)]) = Some m2' ∧
    LRU.peek (cache m2) "gameID" = Some (VRef 1) ∧
    LRU.peek (cache m2') "gameID" = None.
Proof.
  eexists _, _, _. split_and!; [(vm_compute; reflexivity) | | (vm_compute; reflexivity) | (vm_compute; reflexivity)
                               | (vm_compute; reflexivity) | (vm_compute; reflexivity)].
  intros H. vm_compute in H. discriminate H.
Qed.

(** Against [C3] as stated: a missing store document does overwrite a cache
    entry.  A [get] misses the cache and suspends on the store; a [set] of a
    state with stateID -1 fills the cache meanwhile; the [get] resumes with
    no document, finds -1 >= -1 and replaces the entry by [undefined]. *)
Lemma missing_document_overwrites_entry :
  ∃ m2 m3,
    run OfMongo [CallGet "gameID"; CallSet "gameID" (VRef 3)] (Scenario.memory 1000 [])
      = Some m2 ∧
    LRU.peek (cache m2) "gameID" = Some (VRef 3) ∧
    cached_stateID m2 "gameID" = Some (-1)%Z ∧
    exec OfMongo (ResumeGet "gameID" (Docs [])) m2 = Some m3 ∧
    LRU.peek (cache m3) "gameID" = Some VUndefined.
Proof.
  eexists _, _. split_and!.
  - vm_compute. reflexivity.
  - vm_compute. reflexivity.
  - vm_compute. reflexivity.
  - vm_compute. reflexivity.
  - vm_compute. reflexivity.
Qed.

(** Against [C5] as stated: the Mongo connector inserts.  After two [set]
    calls for one game its collection holds two documents. *)
Lemma mongo_set_inserts_again :
  ∃ w1 w2,
    call (Connector.set OfMongo "gameID" (VRef 2)) (Scenario.memory 1000 [], Store.empty)
      = Some (Ok VUndefined, w1) ∧
    call (Connector.set OfMongo "gameID" (VRef 1)) w1 = Some (Ok VUndefined, w2) ∧
    length (held OfMongo w2.2 "gameID") = 2%nat.
Proof.
  eexists _, _. split_and!.
  - vm_compute. reflexivity.
  - vm_compute. reflexivity.
  - vm_compute. reflexivity.
Qed.

(** Against [C6] as stated: [Mongo.connect] is not lenient.  When the
    client's [connect] promise is rejected, the reason is thrown to the
    caller of [connect] and nothing is logged. *)
Lemma mongo_connect_failure_propagates :
  ∃ k m',
    Mongo.connect (Mem ∅ (LRU.create 1000) false [] [] 0)
      = Some (Ok (Await ClientConnect k), Mem ∅ (LRU.create 1000) false [] [] 0) ∧
    k (Rejected (VStr "ECONNREFUSED")) (Mem ∅ (LRU.create 1000) false [] [] 0)
      = Some (Err (Rejection (VStr "ECONNREFUSED")), m') ∧
    console m' = [] ∧
    db m' = false.
Proof.
  exists Mongo.connect_resume, (Mem ∅ (LRU.create 1000) false [] [] 0).
  split_and!; reflexivity.
Qed.



(** Against [C8] as stated: the [{ a: 1 }] of the repository's tests has no
    [_stateID]; once it is persisted and the cache emptied, [get] returns the
    document of the store but [undefined >= 0] is false, the cache stays
    empty, and the next [get] goes to the store again. *)
Lemma get_leaves_cache_cold :
  ∃ w1 l' m2 s2,
    call (Connector.set OfMongo "gameID" (VRef 4)) (Scenario.memory 1000 [], Store.empty)
      = Some (Ok VUndefined, w1) ∧
    call (Connector.get OfMongo "gameID") (cache_reset w1)
      = Some (Ok (VRef l'), (m2, s2)) ∧
    field (heap m2) l' "a" = VNum 1 ∧
    LRU.peek (cache m2) "gameID" = None ∧
    Connector.get OfMongo "gameID" m2
      = Some (Ok (Await (FindLatest "gameID") (Mongo.get_resume "gameID")), m2).
Proof.
  eexists _, _, _, _. split_and!.
  - vm_compute. reflexivity.
  - vm_compute. reflexivity.
  - vm_compute. reflexivity.
  - vm_compute. reflexivity.
  - reflexivity.
Qed.

(** * Further properties of the connectors *)

(** ** Through the cache *)

Lemma passes_guard_absent m id state :
  LRU.peek (cache m) id = None → passes_guard m id state.
Proof. unfold passes_guard. by intros ->. Qed.


(** [X1] Round trip through the cache.  Once a [set(id, state)] has passed
    the guard on a connected connector, [get(id)] returns the very object
    that was passed to [set], and [has(id)] returns [true]; both return
    before any request to the store. *)
Theorem set_then_get_same_reference (b : connector) (id : string) (l : loc)
    (m : mem) (s : Store.t) :
  passes_guard m id (VRef l) →
  connected b m →
  ∃ m1 s1 m2,
    call (Connector.set b id (VRef l)) (m, s) = Some (Ok VUndefined, (m1, s1)) ∧
    Connector.get b id m1 = Some (Ok (Return (VRef l)), m2) ∧
    Connector.has b id m1 = Some (Ok (Return (VBool true)), m2) ∧
    call (Connector.get b id) (m1, s1) = Some (Ok (VRef l), (m2, s1)) ∧
    call (Connector.has b id) (m1, s1) = Some (Ok (VBool true), (m2, s1)).
Proof.
  intros Hg Hc.
  pose proof (peek_after_set b id l m) as Hp.
  eexists _, _, _. split_and!.
  - by apply call_set_passes.
  - by apply (get_hit b id (VRef l)).
  - by apply (has_hit b id (VRef l)).
  - unfold call. simpl fst. simpl snd. by rewrite (get_hit b id (VRef l) _ Hp).
  - unfold call. simpl fst. simpl snd. by rewrite (has_hit b id (VRef l) _ Hp).
Qed.


(** ** Before [connect] *)

(** [X3] A Mongo or Firebase connector whose [connect] has not run throws a
    [TypeError] from a [set] that passes the guard, but only after the state
    has been put into the cache: the object keeps its [_id], nothing reaches
    the store, and a later [get(id)] returns the state from the cache. *)
Theorem set_before_connect_caches (b : connector) (id : string) (l : loc)
    (m : mem) (s : Store.t) :
  b ≠ OfSQL →
  db m = false →
  passes_guard m id (VRef l) →
  ∃ m1 m2,
    call (Connector.set b id (VRef l)) (m, s) = Some (Err TypeError, (m1, s)) ∧
    heap m1 = heap m ∧
    LRU.peek (cache m1) id = Some (VRef l) ∧
    call (Connector.get b id) (m1, s) = Some (Ok (VRef l), (m2, s)).
Proof.
  intros Hb Hdb Hg.
  assert (Hset : Connector.set b id (VRef l) m
    = Some (Err TypeError, with_cache (LRU.set (touched m id) id (VRef l)) m)).
  { unfold passes_guard, touched in *.
    destruct b; [done| |]; run_M; rewrite get_pair; unfold with_heap, with_cache in *;
      simpl; rewrite ?Hdb;
      destruct (default VUndefined (LRU.peek (cache m) id));
      simpl in *; repeat (case_match; simplify_eq/=); done. }
  eexists _, _. split_and!.
  - unfold call. simpl fst. simpl snd. by rewrite Hset.
  - done.
  - simpl. apply peek_set_eq.
  - unfold call. simpl fst. simpl snd.
    rewrite (get_hit b id (VRef l)); [done| |done]. simpl. apply peek_set_eq.
Qed.

(** [X4] Before [connect], a [get] or [has] of a Mongo or Firebase
    connector that misses the cache throws a [TypeError] without asking the
    store. *)
Theorem miss_before_connect_throws (b : connector) (id : string)
    (m : mem) (s : Store.t) :
  b ≠ OfSQL →
  db m = false →
  default VUndefined (LRU.peek (cache m) id) = VUndefined →
  call (Connector.get b id) (m, s)
    = Some (Err TypeError, (with_cache (touched m id) m, s)) ∧
  call (Connector.has b id) (m, s)
    = Some (Err TypeError, (with_cache (touched m id) m, s)).
Proof.
  intros Hb Hdb Hp. unfold call, touched. simpl fst. simpl snd.
  split; (destruct b; [done| |]); run_M; rewrite get_pair, Hp; simpl; by rewrite Hdb.
Qed.

(** ** States without a stateID *)

(** [X5] The guard compares with [>=], which is false against
    [undefined]: a state that has no [_stateID] is never stale.  Its [set]
    replaces a cached state of any stateID and is persisted. *)
Theorem set_without_stateID_overwrites (b : connector) (id : string) (l : loc)
    (o : obj) (m : mem) (s : Store.t) (k : Z) :
  connected b m →
  cached_stateID m id = Some k →
  heap m !! l = Some o →
  o !! "_stateID" = None →
  ∃ m',
    call (Connector.set b id (VRef l)) (m, s)
      = Some (Ok VUndefined, (m', persisted b id (document b m o) s)) ∧
    LRU.peek (cache m') id = Some (VRef l) ∧
    cached_stateID m' id = None.
Proof.
  intros Hc (l0 & Hp & Hf)%cached_stateID_inv Ho Hsid.
  assert (Hfl : field (heap m) l "_stateID" = VUndefined).
  { unfold field. by rewrite Ho; simpl; rewrite Hsid. }
  assert (Hg : passes_guard m id (VRef l)).
  { unfold passes_guard. rewrite Hp. simpl. run_M. simpl. by rewrite Hf, Hfl. }
  exists (after_set b id l m). split_and!.
  - by apply call_set_passes_object.
  - apply peek_after_set.
  - unfold cached_stateID. rewrite peek_after_set. simpl heap.
    by rewrite field_document, Hfl.
Qed.

(** ** Through the store *)

Lemma held_persisted_nonempty b id d s : held b (persisted b id d s) id ≠ [].
Proof.
  destruct b as [| |e dn]; simpl.
  - intros Hnil. pose proof (find_upsert id d (Store.table s)) as Hfind.
    rewrite find_filter, Hnil in Hfind. done.
  - unfold Store.collection. simpl. rewrite lookup_insert_eq. simpl.
    by destruct (default [] (Store.collections s !! id)).
  - intros Hnil.
    pose proof (find_upsert (Firebase.col_of e dn id) d (Store.documents s)) as Hfind.
    rewrite find_filter, Hnil in Hfind. done.
Qed.

Lemma call_has_cold b id m s :
  b ≠ OfSQL →
  connected b m →
  LRU.peek (cache m) id = None →
  ∃ h',
    Connector.has b id m
      = Some (Ok (Await (exists_request b id) (Connector.has_resume b)), m) ∧
    call (Connector.has b id) (m, s)
      = Some (Ok (VBool (bool_decide (held b s id ≠ []))), (with_heap h' m, s)).
Proof.
  intros Hb Hc Hp.
  assert (Hmiss : default VUndefined (LRU.peek (cache m) id) = VUndefined) by by rewrite Hp.
  pose proof (has_miss b id m Hb Hmiss Hc) as Hhas.
  rewrite (touched_absent m id Hp) in Hhas.
  assert (Hm : with_cache (cache m) m = m) by by destruct m.
  rewrite Hm in Hhas.
  destruct (perform_exists b id (heap m) s) as (r & h' & Hperf & Hres).
  exists h'. split; [done|].
  unfold call. simpl fst. simpl snd. rewrite Hhas. simpl. by rewrite Hperf, Hres.
Qed.

(** [X6] Round trip through the store.  Once a [set(id, state)] has passed
    the guard on a connected Mongo or Firebase connector and the cache has
    been emptied, [has(id)] asks the store and returns [true]; it leaves the
    cache empty. *)
Theorem has_after_set_on_cold_cache (b : connector) (id : string) (l : loc)
    (m : mem) (s : Store.t) :
  b ≠ OfSQL →
  passes_guard m id (VRef l) →
  connected b m →
  ∃ w1 m2,
    call (Connector.set b id (VRef l)) (m, s) = Some (Ok VUndefined, w1) ∧
    Connector.has b id (cache_reset w1).1
      = Some (Ok (Await (exists_request b id) (Connector.has_resume b)),
              (cache_reset w1).1) ∧
    call (Connector.has b id) (cache_reset w1) = Some (Ok (VBool true), (m2, w1.2)) ∧
    LRU.entries (cache m2) = [].
Proof.
  intros Hb Hg Hc.
  set (d := Store.snapshot (heap (after_set b id l m)) l).
  destruct (call_has_cold b id (cache_reset (after_set b id l m, persisted b id d s)).1
              (persisted b id d s)) as (h' & Hhas & Hcall); [done| |done|].
  { destruct Hc as [?|?]; [by left|by right]. }
  rewrite bool_decide_eq_true_2 in Hcall by apply held_persisted_nonempty.
  eexists _, _. split_and!.
  - by apply call_set_passes.
  - exact Hhas.
  - exact Hcall.
  - done.
Qed.

Lemma latest_persisted b id d s :
  ∃ doc, latest b (persisted b id d s) id = Some doc ∧
         ∀ p, p ≠ "_id" → doc !! p = d !! p.
Proof.
  destruct b as [| |e dn]; simpl.
  - exists d. by rewrite find_upsert.
  - exists d. unfold Store.collection at 1. simpl. rewrite lookup_insert_eq. simpl.
    by rewrite last_snoc.
  - exists d. by rewrite find_upsert.
Qed.

(** [X7] The guard is only as good as the cache.  When the cache holds no
    entry for [id], every [set(id, state)] is written through, whatever the
    store already holds: after a [set] of one state, an emptied cache and a
    [set] of another state, the document a read of the store finds for [id]
    is the second state, also when its stateID is the smaller one. *)
Theorem cold_cache_set_overwrites_store (b : connector) (id : string)
    (la lb : loc) (ob : obj) (m : mem) (s : Store.t) :
  connected b m →
  passes_guard m id (VRef la) →
  heap m !! lb = Some ob →
  ∃ w1 w2 doc,
    call (Connector.set b id (VRef la)) (m, s) = Some (Ok VUndefined, w1) ∧
    call (Connector.set b id (VRef lb)) (cache_reset w1) = Some (Ok VUndefined, w2) ∧
    latest b w2.2 id = Some doc ∧
    (∀ p, p ≠ "_id" → doc !! p = ob !! p).
Proof.
  intros Hc Hg Hb.
  set (s1 := persisted b id (Store.snapshot (heap (after_set b id la m)) la) s).
  set (m1 := (cache_reset (after_set b id la m, s1)).1).
  assert (Hg1 : passes_guard m1 id (VRef lb)) by by apply passes_guard_absent.
  assert (Hc1 : connected b m1) by (destruct Hc as [?|?]; [by left|by right]).
  assert (Hb1 : ∃ ob1, heap m1 !! lb = Some ob1 ∧ ∀ p, p ≠ "_id" → ob1 !! p = ob !! p).
  { unfold m1. simpl. rewrite lookup_alter.
    destruct (decide (la = lb)) as [->|Hne].
    - rewrite Hb. simpl. eexists. split; [done|]. intros p Hp. by apply document_ne.
    - rewrite Hb. eauto. }
  destruct Hb1 as (ob1 & Hb1 & Hob1).
  set (d := document b m1 ob1).
  destruct (latest_persisted b id d s1) as (doc & Hlatest & Hdoc).
  exists (after_set b id la m, s1), (after_set b id lb m1, persisted b id d s1), doc.
  split_and!.
  - by apply call_set_passes.
  - change (cache_reset (after_set b id la m, s1)) with (m1, s1).
    by apply call_set_passes_object.
  - done.
  - intros p Hp. rewrite Hdoc by done. unfold d. rewrite document_ne by done.
    by apply Hob1.
Qed.

(** ** Reads of a cold cache *)


Lemma perform_read_none b id h s :
  b ≠ OfSQL →
  held b s id = [] →
  ∃ r doc,
    Store.perform (read_request b id) h s = Some (r, h, s) ∧
    fetched b r = Some (doc, false) ∧
    doc = match b with OfFirebase _ _ => VNull | _ => VUndefined end.
Proof.
  intros Hb Hh. destruct b as [| |e dn]; [done| |]; simpl in *.
  - exists (Docs []), VUndefined. by rewrite Hh.
  - exists (Snapshot VNull false), VNull.
    assert (Hreq : ∀ c, Store.perform (Firebase.read_of e c) h s
                        = Store.perform (ColGet c) h s) by by destruct e.
    rewrite Hreq. simpl. by rewrite find_filter, Hh.
Qed.



Lemma unknown_id_reads (b : connector) (id : string) (m : mem) (s : Store.t) :
  b ≠ OfSQL →
  connected b m →
  LRU.peek (cache m) id = None →
  held b s id = [] →
  call (Connector.get b id) (m, s)
    = Some (Ok (match b with OfFirebase _ _ => VNull | _ => VUndefined end), (m, s)) ∧
  call (Connector.has b id) (m, s) = Some (Ok (VBool false), (m, s)).
Proof.
  intros Hb Hc Hp Hh.
  assert (Hmiss : default VUndefined (LRU.peek (cache m) id) = VUndefined) by by rewrite Hp.
  assert (Hm : with_cache (cache m) m = m) by by destruct m.
  assert (Hmh : with_heap (heap m) m = m) by by destruct m.
  split.
  - destruct (perform_read_none b id (heap m) s Hb Hh) as (r & doc & Hperf & Hr & ->).
    unfold call. simpl fst. simpl snd. rewrite (get_miss b id m Hb Hmiss Hc).
    rewrite (touched_absent m id Hp), Hm. simpl. rewrite Hperf, Hmh.
    rewrite (get_resume_spec b id r m _ false false Hb Hr).
    + by rewrite (touched_absent m id Hp), Hm.
    + intros v Hv. congruence.
    + done.
    + unfold spec_oldStateID. rewrite Hp. by destruct b.
  - assert (Hperf : ∃ r, Store.perform (exists_request b id) (heap m) s = Some (r, heap m, s) ∧
       ∀ m0, Connector.has_resume b r m0 = Some (Ok (Return (VBool false)), m0)).
    { destruct b as [| |e dn]; [done| |]; simpl in *.
      - exists (Docs []). by rewrite Hh.
      - exists (Snapshot VNull false).
        assert (Hreq : ∀ c, Store.perform (Firebase.read_of e c) (heap m) s
                            = Store.perform (ColGet c) (heap m) s) by by destruct e.
        rewrite Hreq. simpl. by rewrite find_filter, Hh. }
    destruct Hperf as (r & Hperf & Hres).
    unfold call. simpl fst. simpl snd. rewrite (has_miss b id m Hb Hmiss Hc).
    rewrite (touched_absent m id Hp), Hm. simpl. by rewrite Hperf, Hmh, Hres.
Qed.

(** [X8] Reading a game that was never set.  On a connected Mongo or
    Firebase connector whose cache and store hold nothing for [id],
    [get(id)] returns [undefined] for Mongo and [null] for Firebase,
    [has(id)] returns [false], and neither changes the cache, the objects or
    the store. *)
Theorem get_and_has_of_unknown_id (b : connector) (id : string)
    (m : mem) (s : Store.t) :
  b ≠ OfSQL →
  connected b m →
  LRU.peek (cache m) id = None →
  held b s id = [] →
  call (Connector.get b id) (m, s)
    = Some (Ok (match b with OfFirebase _ _ => VNull | _ => VUndefined end), (m, s)) ∧
  call (Connector.has b id) (m, s) = Some (Ok (VBool false), (m, s)).
Proof. apply unknown_id_reads. Qed.

(** ** Eviction *)




(** ** The SQL connector cannot read its store *)

Lemma sql_has_cold id m s :
  LRU.peek (cache m) id = None →
  call (SQL.has id) (m, s) = Some (Err TypeError, (m, s)).
Proof.
  intros Hp. unfold call. simpl fst. simpl snd.
  assert (Hmiss : default VUndefined (LRU.peek (cache m) id) = VUndefined) by by rewrite Hp.
  destruct (sql_miss id m Hmiss) as [_ ->].
  rewrite (touched_absent m id Hp). by destruct m.
Qed.

(** [X10] No round trip through the SQL store.  [SQL.get] and [SQL.has]
    call [findOne] on [this.db], the Sequelize instance, and not on the
    model [this.game]: whenever the cache holds no defined entry for [id]
    they throw a [TypeError], without a request to the store and having
    changed nothing but the recency order of the cache.  So once
    [set(id, state)] has persisted a state and the cache has been emptied,
    the table holds the row of [id], and [get(id)] and [has(id)] throw all
    the same. *)
Theorem sql_reads_throw_on_a_miss (id : string) (l : loc) (o : obj)
    (m : mem) (s : Store.t) :
  passes_guard m id (VRef l) →
  heap m !! l = Some o →
  (∀ m0 s0, default VUndefined (LRU.peek (cache m0) id) = VUndefined →
     call (SQL.get id) (m0, s0)
       = Some (Err TypeError, (with_cache (touched m0 id) m0, s0)) ∧
     call (SQL.has id) (m0, s0)
       = Some (Err TypeError, (with_cache (touched m0 id) m0, s0))) ∧
  ∃ w1,
    call (SQL.set id (VRef l)) (m, s) = Some (Ok VUndefined, w1) ∧
    latest OfSQL w1.2 id = Some (delete "_id" o) ∧
    call (SQL.get id) (cache_reset w1) = Some (Err TypeError, cache_reset w1) ∧
    call (SQL.has id) (cache_reset w1) = Some (Err TypeError, cache_reset w1).
Proof.
  intros Hg Ho. split.
  - intros m0 s0 Hmiss. destruct (sql_miss id m0 Hmiss) as [Hget Hhas].
    unfold call. simpl fst. simpl snd. by rewrite Hget, Hhas.
  - exists (after_set OfSQL id l m, persisted OfSQL id (delete "_id" o) s). split_and!.
    + change (SQL.set id (VRef l)) with (Connector.set OfSQL id (VRef l)).
      by rewrite (call_set_passes_object OfSQL id l o m s Hg (or_introl eq_refl) Ho).
    + simpl. apply find_upsert.
    + by apply sql_get_never_set.
    + by apply sql_has_cold.
Qed.

(** ** The InMemory connector as a map *)

(** [X11] The InMemory connector behaves as a map from ids to states:
    after [set(id, state)], [has(id)] is [true] whatever the state, and
    [get] and [has] of any other id answer as before; on a new connector
    [get] returns [undefined] and [has] returns [false]. *)
Theorem InMemory_map_laws (g : InMemory.games) (id id' : string) (state : value) :
  id' ≠ id →
  InMemory.has id (InMemory.set id state g) = true ∧
  InMemory.get id' (InMemory.set id state g) = InMemory.get id' g ∧
  InMemory.has id' (InMemory.set id state g) = InMemory.has id' g ∧
  InMemory.get id InMemory.create = VUndefined ∧
  InMemory.has id InMemory.create = false.
Proof.
  intros Hne. unfold InMemory.has, InMemory.get, InMemory.set, InMemory.create.
  rewrite lookup_insert_eq, lookup_insert_ne, lookup_empty by done.
  by split_and!.
Qed.

(** ** Construction, then [connect] *)



(** ** Constructors *)

Lemma jtruthy_str s : s ≠ "" → jtruthy (JStr s) = true.
Proof. intros Hs. simpl. by destruct (String.eqb_spec s ""). Qed.

Lemma cmap_not_in_memory {A} (f : A → database) (c : C A) g :
  (∀ a, f a ≠ DbInMemory g) → cmap f c ≠ Some (Ok (DbInMemory g)).
Proof.
  intros Hf. unfold cmap, cbind. destruct c as [[a|e]|]; [|done|done].
  intros [= Heq]. by apply (Hf a).
Qed.

(** [X13] The SQLite and MySQL constructors need a database: when the
    options object has neither a truthy [path] (for MySQL, [url]) nor a
    truthy [config], [this.db] is never assigned and the constructor throws
    a [TypeError] at [this.db.define]. *)
Theorem sql_constructors_need_a_database (fields : gmap string json) :
  jtruthy (default JUndefined (fields !! "config")) = false →
  (jtruthy (default JUndefined (fields !! "path")) = false →
     New.SQLite (JObj fields) = Some (Err TypeError)) ∧
  (jtruthy (default JUndefined (fields !! "url")) = false →
     New.MySQL (JObj fields) = Some (Err TypeError)).
Proof.
  intros Hconfig. split; intros Hpath.
  - unfold New.SQLite, cbind, jprop. by rewrite Hpath, Hconfig.
  - unfold New.MySQL, cbind, jprop. by rewrite Hpath, Hconfig.
Qed.

(** [X14] Only the exact string ['RTD'] in [config.engine] selects the
    Realtime Database engine of a Firebase connector; any other value, a
    missing one, or an [engine] given beside [config] gives Firestore. *)
Theorem firebase_engine_is_RTD_iff (fields config : gmap string json)
    (o : New.firebase) :
  fields !! "config" = Some (JObj config) →
  New.Firebase (JObj fields) = Some (Ok o) →
  (New.firebase_engine o = RTD ↔ config !! "engine" = Some (JStr "RTD")).
Proof.
  intros Hcfg. unfold New.Firebase, cbind, jprop. rewrite Hcfg. simpl.
  destruct (config !! "engine") as [e|] eqn:He; simpl.
  - destruct e as [| | | |s|]; simpl;
      intros H; repeat (case_match; simplify_eq/=); split; try done.
    all: try (intros _; f_equal; f_equal; by apply String.eqb_eq).
    all: intros [= ->]; by rewrite String.eqb_refl in *.
  - intros H; repeat (case_match; simplify_eq/=); split; done.
Qed.

(** ** [DBFromEnv] *)

(** [X15] [MONGO_URI] comes first: when it is set to a non-empty string,
    [DBFromEnv] returns a Mongo connector for that url, with database name
    ['bgio'], the real client and an empty cache of capacity 1000, whatever
    the other variables are. *)
Theorem DBFromEnv_prefers_mongo (env : gmap string string) (uri : string) :
  env !! "MONGO_URI" = Some uri →
  uri ≠ "" →
  DBFromEnv env
  = Some (Ok (DbMongo (New.MongoObject RealDriver (JStr uri) (JStr "bgio")
                          (LRU.create 1000)))).
Proof.
  intros Huri Hne. unfold DBFromEnv, getenv. rewrite Huri.
  rewrite (jtruthy_str uri Hne).
  unfold cmap, New.Mongo, cbind, jprop.
  rewrite lookup_singleton_eq. rewrite !lookup_singleton_ne by done. done.
Qed.

(** [X16] [DBFromEnv] falls back to a new, empty InMemory connector
    exactly when none of its guards holds: [MONGO_URI], [MYSQL_URL],
    [SQLite_URL] and [POSTGRE_URL] are unset or empty, and at least one of
    the four Firebase variables is. *)
Theorem DBFromEnv_in_memory_iff (env : gmap string string) :
  DBFromEnv env = Some (Ok (DbInMemory InMemory.create)) ↔
  jtruthy (getenv env "MONGO_URI") = false ∧
  jtruthy (getenv env "FIREBASE_APIKEY")
    && jtruthy (getenv env "FIREBASE_AUTHDOMAIN")
    && jtruthy (getenv env "FIREBASE_DATABASEURL")
    && jtruthy (getenv env "FIREBASE_PROJECTID") = false ∧
  jtruthy (getenv env "MYSQL_URL") = false ∧
  jtruthy (getenv env "SQLite_URL") = false ∧
  jtruthy (getenv env "POSTGRE_URL") = false.
Proof.
  unfold DBFromEnv. split.
  - intros H.
    destruct (jtruthy (getenv env "MONGO_URI")).
    { by apply cmap_not_in_memory in H. }
    destruct (jtruthy (getenv env "FIREBASE_APIKEY")
              && jtruthy (getenv env "FIREBASE_AUTHDOMAIN")
              && jtruthy (getenv env "FIREBASE_DATABASEURL")
              && jtruthy (getenv env "FIREBASE_PROJECTID")).
    { done. }
    destruct (jtruthy (getenv env "MYSQL_URL")).
    { by apply cmap_not_in_memory in H. }
    destruct (jtruthy (getenv env "SQLite_URL")).
    { by apply cmap_not_in_memory in H. }
    destruct (jtruthy (getenv env "POSTGRE_URL")); done.
  - intros (-> & -> & -> & -> & ->). done.
Qed.

(** [X17] Selecting SQLite from the environment fails.  When [SQLite_URL]
    is the first guard that holds, [DBFromEnv] calls
    [new SQLite({ url })], but that constructor reads [path] and [config],
    not [url]: [this.db] stays unassigned and [DBFromEnv] throws a
    [TypeError]. *)
Theorem DBFromEnv_sqlite_throws (env : gmap string string) :
  jtruthy (getenv env "MONGO_URI") = false →
  jtruthy (getenv env "FIREBASE_APIKEY")
    && jtruthy (getenv env "FIREBASE_AUTHDOMAIN")
    && jtruthy (getenv env "FIREBASE_DATABASEURL")
    && jtruthy (getenv env "FIREBASE_PROJECTID") = false →
  jtruthy (getenv env "MYSQL_URL") = false →
  jtruthy (getenv env "SQLite_URL") = true →
  DBFromEnv env = Some (Err TypeError).
Proof.
  intros Hmongo Hfb Hmysql Hsqlite. unfold DBFromEnv.
  rewrite Hmongo, Hfb, Hmysql, Hsqlite.
  unfold cmap, New.SQLite, cbind, jprop.
  by rewrite !lookup_singleton_ne by done.
Qed.

Lemma cmap_not_firebase {A} (f : A → database) (c : C A) arg :
  (∀ a, f a ≠ DbFirebase arg) → cmap f c ≠ Some (Ok (DbFirebase arg)).
Proof.
  intros Hf. unfold cmap, cbind. destruct c as [[a|e]|]; [|done|done].
  intros [= H]. by apply (Hf a).
Qed.

(** [X18] Firebase comes second.  [DBFromEnv] constructs a Firebase
    connector exactly when [MONGO_URI] is unset or empty and
    [FIREBASE_APIKEY], [FIREBASE_AUTHDOMAIN], [FIREBASE_DATABASEURL] and
    [FIREBASE_PROJECTID] are all set and non-empty, whatever the SQL
    variables are.  The argument of the constructor then holds these four
    values under [config], and [FIREBASE_ENGINE] under [engine]: beside
    [config], not in it. *)
Theorem DBFromEnv_firebase_iff (env : gmap string string) (arg : json) :
  DBFromEnv env = Some (Ok (DbFirebase arg)) ↔
  jtruthy (getenv env "MONGO_URI") = false ∧
  jtruthy (getenv env "FIREBASE_APIKEY")
    && jtruthy (getenv env "FIREBASE_AUTHDOMAIN")
    && jtruthy (getenv env "FIREBASE_DATABASEURL")
    && jtruthy (getenv env "FIREBASE_PROJECTID") = true ∧
  arg = JObj {[ "config" := JObj {[ "apiKey" := getenv env "FIREBASE_APIKEY";
                                    "authDomain" := getenv env "FIREBASE_AUTHDOMAIN";
                                    "databaseURL" := getenv env "FIREBASE_DATABASEURL";
                                    "projectId" := getenv env "FIREBASE_PROJECTID" ]};
                "engine" := getenv env "FIREBASE_ENGINE" ]}.
Proof.
  unfold DBFromEnv. split.
  - intros H.
    destruct (jtruthy (getenv env "MONGO_URI")).
    { by apply cmap_not_firebase in H. }
    destruct (jtruthy (getenv env "FIREBASE_APIKEY")
              && jtruthy (getenv env "FIREBASE_AUTHDOMAIN")
              && jtruthy (getenv env "FIREBASE_DATABASEURL")
              && jtruthy (getenv env "FIREBASE_PROJECTID")).
    { by simplify_eq. }
    destruct (jtruthy (getenv env "MYSQL_URL")).
    { by apply cmap_not_firebase in H. }
    destruct (jtruthy (getenv env "SQLite_URL")).
    { by apply cmap_not_firebase in H. }
    destruct (jtruthy (getenv env "POSTGRE_URL")); done.
  - intros (-> & -> & ->). done.
Qed.

(** ** The options of the SQLite constructor *)

(** [X19] The options the SQLite constructor hands to Sequelize when it is
    given a [config] and no [path]: the dialect is ['sqlite'], [storage]
    falls back to [':memory:'] when it is missing or falsy, and every
    property of [config.pool] overrides the pool defaults [max: 5],
    [idle: 10000], [acquire: 30000], which stay for the properties that
    [pool] does not have. *)
Theorem sqlite_config_defaults (fields config pool : gmap string json)
    (o : New.sql) :
  jtruthy (default JUndefined (fields !! "path")) = false →
  fields !! "config" = Some (JObj config) →
  config !! "pool" = Some (JObj pool) →
  New.SQLite (JObj fields) = Some (Ok o) →
  ∃ options merged,
    New.sql_db o
      = SequelizeOptions (default JUndefined (config !! "database"))
                         (default JUndefined (config !! "username"))
                         (default JUndefined (config !! "password")) options ∧
    options !! "dialect" = Some (JStr "sqlite") ∧
    options !! "storage"
      = Some (jor (default JUndefined (config !! "storage")) (JStr ":memory:")) ∧
    options !! "pool" = Some (JObj merged) ∧
    (∀ k v, pool !! k = Some v → merged !! k = Some v) ∧
    (∀ k, pool !! k = None → merged !! k = pool_defaults !! k).
Proof.
  intros Hpath Hconfig Hpool.
  unfold New.SQLite, cbind, jprop. rewrite Hpath, Hconfig. simpl. rewrite Hpool. simpl.
  intros H. repeat (case_match; simplify_eq/=).
  eexists _, _. split_and!; [done|done|done|done| |].
  - intros k v Hk. by apply lookup_union_Some_l.
  - intros k Hk. by apply lookup_union_r.
Qed.

(** ** Instances of the further properties *)

Lemma set_then_get_same_reference_witness :
  ∃ m1 s1 m2,
    call (Connector.set OfMongo "gameID" (VRef 1)) (Scenario.memory 1000 [], Store.empty)
      = Some (Ok VUndefined, (m1, s1)) ∧
    Connector.get OfMongo "gameID" m1 = Some (Ok (Return (VRef 1)), m2) ∧
    Connector.has OfMongo "gameID" m1 = Some (Ok (Return (VBool true)), m2) ∧
    call (Connector.get OfMongo "gameID") (m1, s1) = Some (Ok (VRef 1), (m2, s1)) ∧
    call (Connector.has OfMongo "gameID") (m1, s1) = Some (Ok (VBool true), (m2, s1)).
Proof.
  apply (set_then_get_same_reference OfMongo "gameID" 1%positive
           (Scenario.memory 1000 []) Store.empty).
  - vm_compute. reflexivity.
  - by right.
Defined.


Lemma set_before_connect_caches_witness :
  ∃ m1 m2,
    call (Connector.set OfMongo "gameID" (VRef 1))
         (Mem Scenario.objects (LRU.create 1000) false [] [] 0, Store.empty)
      = Some (Err TypeError, (m1, Store.empty)) ∧
    heap m1 = Scenario.objects ∧
    LRU.peek (cache m1) "gameID" = Some (VRef 1) ∧
    call (Connector.get OfMongo "gameID") (m1, Store.empty)
      = Some (Ok (VRef 1), (m2, Store.empty)).
Proof.
  apply (set_before_connect_caches OfMongo "gameID" 1%positive
           (Mem Scenario.objects (LRU.create 1000) false [] [] 0) Store.empty).
  - discriminate.
  - reflexivity.
  - vm_compute. reflexivity.
Defined.

Lemma miss_before_connect_throws_witness :
  call (Connector.get OfMongo "gameID")
       (Mem Scenario.objects (LRU.create 1000) false [] [] 0, Store.empty)
    = Some (Err TypeError,
            (with_cache (touched (Mem Scenario.objects (LRU.create 1000) false [] [] 0)
                           "gameID")
               (Mem Scenario.objects (LRU.create 1000) false [] [] 0), Store.empty)) ∧
  call (Connector.has OfMongo "gameID")
       (Mem Scenario.objects (LRU.create 1000) false [] [] 0, Store.empty)
    = Some (Err TypeError,
            (with_cache (touched (Mem Scenario.objects (LRU.create 1000) false [] [] 0)
                           "gameID")
               (Mem Scenario.objects (LRU.create 1000) false [] [] 0), Store.empty)).
Proof.
  apply (miss_before_connect_throws OfMongo "gameID"
           (Mem Scenario.objects (LRU.create 1000) false [] [] 0) Store.empty).
  - discriminate.
  - reflexivity.
  - reflexivity.
Defined.

Lemma set_without_stateID_overwrites_witness :
  ∃ m',
    call (Connector.set OfMongo "gameID" (VRef 4))
         (Scenario.memory 1000 [("gameID", VRef 1)], Store.empty)
      = Some (Ok VUndefined,
              (m', persisted OfMongo "gameID"
                     (document OfMongo (Scenario.memory 1000 [("gameID", VRef 1)])
                        Scenario.plain) Store.empty)) ∧
    LRU.peek (cache m') "gameID" = Some (VRef 4) ∧
    cached_stateID m' "gameID" = None.
Proof.
  apply (set_without_stateID_overwrites OfMongo "gameID" 4%positive Scenario.plain
           (Scenario.memory 1000 [("gameID", VRef 1)]) Store.empty 1).
  - by right.
  - vm_compute. reflexivity.
  - vm_compute. reflexivity.
  - vm_compute. reflexivity.
Defined.

Lemma has_after_set_on_cold_cache_witness :
  ∃ w1 m2,
    call (Connector.set OfMongo "gameID" (VRef 1)) (Scenario.memory 1000 [], Store.empty)
      = Some (Ok VUndefined, w1) ∧
    Connector.has OfMongo "gameID" (cache_reset w1).1
      = Some (Ok (Await (exists_request OfMongo "gameID") (Connector.has_resume OfMongo)),
              (cache_reset w1).1) ∧
    call (Connector.has OfMongo "gameID") (cache_reset w1)
      = Some (Ok (VBool true), (m2, w1.2)) ∧
    LRU.entries (cache m2) = [].
Proof.
  apply (has_after_set_on_cold_cache OfMongo "gameID" 1%positive
           (Scenario.memory 1000 []) Store.empty).
  - discriminate.
  - vm_compute. reflexivity.
  - by right.
Defined.

Lemma cold_cache_set_overwrites_store_witness :
  ∃ w1 w2 doc,
    call (Connector.set OfMongo "gameID" (VRef 1)) (Scenario.memory 1000 [], Store.empty)
      = Some (Ok VUndefined, w1) ∧
    call (Connector.set OfMongo "gameID" (VRef 2)) (cache_reset w1)
      = Some (Ok VUndefined, w2) ∧
    latest OfMongo w2.2 "gameID" = Some doc ∧
    (∀ p, p ≠ "_id" → doc !! p = Scenario.state0 !! p).
Proof.
  apply (cold_cache_set_overwrites_store OfMongo "gameID" 1%positive 2%positive
           Scenario.state0 (Scenario.memory 1000 []) Store.empty).
  - by right.
  - vm_compute. reflexivity.
  - vm_compute. reflexivity.
Defined.

Lemma get_and_has_of_unknown_id_witness :
  call (Connector.get (OfFirebase Firestore "bgio") "gameID")
       (Scenario.memory 1000 [], Store.empty)
    = Some (Ok VNull, (Scenario.memory 1000 [], Store.empty)) ∧
  call (Connector.has (OfFirebase Firestore "bgio") "gameID")
       (Scenario.memory 1000 [], Store.empty)
    = Some (Ok (VBool false), (Scenario.memory 1000 [], Store.empty)).
Proof.
  apply (get_and_has_of_unknown_id (OfFirebase Firestore "bgio") "gameID"
           (Scenario.memory 1000 []) Store.empty).
  - discriminate.
  - by right.
  - reflexivity.
  - reflexivity.
Defined.


Lemma sql_reads_throw_on_a_miss_witness :
  (∀ m0 s0, default VUndefined (LRU.peek (cache m0) "gameID") = VUndefined →
     call (SQL.get "gameID") (m0, s0)
       = Some (Err TypeError, (with_cache (touched m0 "gameID") m0, s0)) ∧
     call (SQL.has "gameID") (m0, s0)
       = Some (Err TypeError, (with_cache (touched m0 "gameID") m0, s0))) ∧
  ∃ w1,
    call (SQL.set "gameID" (VRef 1)) (Scenario.memory 1000 [], Store.empty)
      = Some (Ok VUndefined, w1) ∧
    latest OfSQL w1.2 "gameID" = Some (delete "_id" Scenario.state1) ∧
    call (SQL.get "gameID") (cache_reset w1) = Some (Err TypeError, cache_reset w1) ∧
    call (SQL.has "gameID") (cache_reset w1) = Some (Err TypeError, cache_reset w1).
Proof.
  apply (sql_reads_throw_on_a_miss "gameID" 1%positive Scenario.state1
           (Scenario.memory 1000 []) Store.empty).
  - vm_compute. reflexivity.
  - vm_compute. reflexivity.
Defined.

Lemma InMemory_map_laws_witness :
  InMemory.has "gameID" (InMemory.set "gameID" VUndefined InMemory.create) = true ∧
  InMemory.get "another" (InMemory.set "gameID" VUndefined InMemory.create)
    = InMemory.get "another" InMemory.create ∧
  InMemory.has "another" (InMemory.set "gameID" VUndefined InMemory.create)
    = InMemory.has "another" InMemory.create ∧
  InMemory.get "gameID" InMemory.create = VUndefined ∧
  InMemory.has "gameID" InMemory.create = false.
Proof.
  apply (InMemory_map_laws InMemory.create "gameID" "another" VUndefined).
  discriminate.
Defined.


Lemma sql_constructors_need_a_database_witness :
  (jtruthy (default JUndefined (({[ "url" := JStr "db.sqlite" ]} : gmap string json)
                                  !! "path")) = false →
     New.SQLite (JObj {[ "url" := JStr "db.sqlite" ]}) = Some (Err TypeError)) ∧
  (jtruthy (default JUndefined (({[ "url" := JStr "db.sqlite" ]} : gmap string json)
                                  !! "url")) = false →
     New.MySQL (JObj {[ "url" := JStr "db.sqlite" ]}) = Some (Err TypeError)).
Proof.
  apply (sql_constructors_need_a_database {[ "url" := JStr "db.sqlite" ]}).
  reflexivity.
Defined.

Lemma firebase_engine_is_RTD_iff_witness :
  New.firebase_engine
    (New.FirebaseObject RealDriver Firestore JUndefined JUndefined JUndefined JUndefined
       (JStr "bgio") (LRU.create 1000)) = RTD
  ↔ ({[ "engine" := JStr "RTDB" ]} : gmap string json) !! "engine" = Some (JStr "RTD").
Proof.
  apply (firebase_engine_is_RTD_iff
           {[ "config" := JObj {[ "engine" := JStr "RTDB" ]} ]}
           {[ "engine" := JStr "RTDB" ]}).
  - reflexivity.
  - vm_compute. reflexivity.
Defined.

Lemma DBFromEnv_prefers_mongo_witness :
  DBFromEnv {[ "MONGO_URI" := "mongodb://localhost"; "MYSQL_URL" := "mysql://localhost" ]}
  = Some (Ok (DbMongo (New.MongoObject RealDriver (JStr "mongodb://localhost")
                          (JStr "bgio") (LRU.create 1000)))).
Proof.
  apply (DBFromEnv_prefers_mongo
           {[ "MONGO_URI" := "mongodb://localhost"; "MYSQL_URL" := "mysql://localhost" ]}
           "mongodb://localhost").
  - reflexivity.
  - discriminate.
Defined.

Lemma DBFromEnv_sqlite_throws_witness :
  DBFromEnv {[ "SQLite_URL" := "db.sqlite"; "POSTGRE_URL" := "postgres://localhost" ]}
  = Some (Err TypeError).
Proof.
  apply (DBFromEnv_sqlite_throws
           {[ "SQLite_URL" := "db.sqlite"; "POSTGRE_URL" := "postgres://localhost" ]});
    reflexivity.
Defined.

Lemma sqlite_config_defaults_witness :
  ∃ options merged,
    New.sql_db
      (New.SqlObject
         (SequelizeOptions (JStr "games") JUndefined JUndefined
            {[ "host" := JUndefined; "port" := JUndefined; "dialect" := JStr "sqlite";
               "pool" := JObj ({[ "max" := JNum 20 ]} ∪ pool_defaults);
               "storage" := JStr ":memory:" ]})
         (LRU.create 1000))
      = SequelizeOptions
          (default JUndefined
             (({[ "database" := JStr "games"; "pool" := JObj {[ "max" := JNum 20 ]} ]}
                : gmap string json) !! "database"))
          (default JUndefined
             (({[ "database" := JStr "games"; "pool" := JObj {[ "max" := JNum 20 ]} ]}
                : gmap string json) !! "username"))
          (default JUndefined
             (({[ "database" := JStr "games"; "pool" := JObj {[ "max" := JNum 20 ]} ]}
                : gmap string json) !! "password")) options ∧
    options !! "dialect" = Some (JStr "sqlite") ∧
    options !! "storage"
      = Some (jor (default JUndefined
                     (({[ "database" := JStr "games";
                          "pool" := JObj {[ "max" := JNum 20 ]} ]}
                        : gmap string json) !! "storage")) (JStr ":memory:")) ∧
    options !! "pool" = Some (JObj merged) ∧
    (∀ k v, ({[ "max" := JNum 20 ]} : gmap string json) !! k = Some v →
            merged !! k = Some v) ∧
    (∀ k, ({[ "max" := JNum 20 ]} : gmap string json) !! k = None →
          merged !! k = pool_defaults !! k).
Proof.
  apply (sqlite_config_defaults
           {[ "config" := JObj {[ "database" := JStr "games";
                                  "pool" := JObj {[ "max" := JNum 20 ]} ]} ]}
           {[ "database" := JStr "games"; "pool" := JObj {[ "max" := JNum 20 ]} ]}
           {[ "max" := JNum 20 ]}).
  - reflexivity.
  - reflexivity.
  - reflexivity.
  - vm_compute. reflexivity.
Defined.
